(** * Recurring billing engine: a shallow embedding

    Embedded modules:
    - [app/models.py]                      the enums and the rows,
    - [app/schemas.py]                     [SubscriptionCreate],
    - [app/services/payment_service.py]    [PaymentService.process_payment],
    - [app/services/billing_service.py]    [BillingService],
    - [app/main.py]                        the routes on users, subscriptions
                                           and jobs,
    - [app/config.py]                      [Settings.get_masked_config],
    - [migration-tools/data_migrator.py]   the orchestration of the migration.

    Conventions of the embedding.
    - A [datetime] is a point of the integer time line, counted in
      microseconds from 1970-01-01T00:00:00; [timedelta_days n] is the
      length of [n] days; [datetime + timedelta] is integer addition and
      raises [OverflowError] when the sum leaves the range of [datetime].
    - An attribute of a row holds what its column gives: the column
      [billing_cycle] is a [String(20)], so a plan read from the database
      holds the plain string of its cycle, and only a plan built in memory
      holds a member of the enum.
    - Every value the Python code draws from its environment (the random
      numbers of the payment simulator, [uuid4], [datetime.utcnow], the
      outcome of a round trip to the database) is an explicit argument, so
      each function below is a function of its inputs and of these reads.
    - An [async] function is embedded by what it computes between its call
      and its return; exceptions are values of [result]. *)

From Stdlib Require Import ZArith Lia.
From stdpp Require Import base tactics option list strings pretty gmap.

Local Open Scope string_scope.
Local Open Scope list_scope.
Local Open Scope Z_scope.

(** ** Exceptions *)

Inductive result (A : Type) : Type :=
| Ok (a : A)
| Raise (e : string).
Arguments Ok {A} a.
Arguments Raise {A} e.

#[global] Instance result_ret : MRet result := fun A a => Ok a.
#[global] Instance result_bind : MBind result := fun A B f r =>
  match r with
  | Ok a => f a
  | Raise e => Raise e
  end.

(** ** app/models.py *)

Inductive SubscriptionStatus := ACTIVE | CANCELLED | PAST_DUE | PAUSED.
Inductive BillingCycle := MONTHLY | YEARLY | WEEKLY.
Inductive PaymentStatus := SUCCESS | FAILED | PENDING | REFUNDED.

#[global] Instance SubscriptionStatus_eq_dec : EqDecision SubscriptionStatus.
Proof. solve_decision. Defined.
#[global] Instance BillingCycle_eq_dec : EqDecision BillingCycle.
Proof. solve_decision. Defined.
#[global] Instance PaymentStatus_eq_dec : EqDecision PaymentStatus.
Proof. solve_decision. Defined.

(** [BillingCycle.<member>.value] *)
Definition BillingCycle_value (c : BillingCycle) : string :=
  match c with
  | MONTHLY => "monthly"
  | YEARLY => "yearly"
  | WEEKLY => "weekly"
  end.

(** What [plan.billing_cycle] holds.  The column is declared
    [mapped_column(String(20))]: a plan read from the database holds the
    string stored in the column; a plan built in memory holds the enum
    member it was given. *)
Inductive BillingCycleAttr :=
| Member (c : BillingCycle)
| Loaded (s : string).

(** [plan.billing_cycle.value]: a [str] has no attribute [value]. *)
Definition billing_cycle_value (a : BillingCycleAttr) : result string :=
  match a with
  | Member c => Ok (BillingCycle_value c)
  | Loaded _ => Raise "'str' object has no attribute 'value'"
  end.

Definition datetime := Z.

Definition microseconds_per_day : Z := 86400000000.

(** The length of [n] days. *)
Definition timedelta_days (n : Z) : Z := n * microseconds_per_day.

(** [timedelta(days=n)], which takes at most 999999999 days and raises
    [OverflowError] beyond; the text of the message plays no part below. *)
Definition timedelta (days : Z) : result Z :=
  if decide (Z.abs days <= 999999999) then Ok (timedelta_days days)
  else Raise ("days=" +:+ pretty days +:+ "; must have magnitude <= 999999999").

(** [datetime.min] and [datetime.max]: 0001-01-01T00:00:00 and
    9999-12-31T23:59:59.999999. *)
Definition datetime_min : datetime := -62135596800000000.
Definition datetime_max : datetime := 253402300799999999.

(** [d + delta] on a [datetime]: an [OverflowError] outside the range. *)
Definition datetime_add (d : datetime) (delta : Z) : result datetime :=
  if decide (datetime_min <= d + delta <= datetime_max) then Ok (d + delta)
  else Raise "date value out of range".

(** [d.date()], the day of [d] taken at midnight, which is how a [date]
    bound compares with a [DateTime] column. *)
Definition date_of (d : datetime) : datetime := d - d `mod` microseconds_per_day.

(** Amounts are [Numeric(10, 2)]: an integer number of cents. *)
Definition Decimal := Z.

Record SubscriptionPlan := {
  plan_id : Z;
  plan_name : string;
  plan_price : Decimal;
  plan_billing_cycle : BillingCycleAttr;
  plan_trial_days : Z;
}.

(** A [Subscription] row together with its joined [plan] relationship. *)
Record Subscription := {
  sub_id : Z;
  sub_user_id : Z;
  sub_plan_id : Z;
  sub_status : SubscriptionStatus;
  sub_started_at : datetime;
  sub_next_billing_date : datetime;
  sub_cancelled_at : option datetime;
  sub_trial_ends_at : option datetime;
  sub_plan : SubscriptionPlan;
}.

Record BillingHistory := {
  bh_subscription_id : Z;
  bh_amount : Decimal;
  bh_status : PaymentStatus;
  bh_transaction_id : option string;
  bh_failure_reason : option string;
  bh_processed_at : datetime;
}.

Record BillingJob := {
  job_id : string;
  job_type : string;
  job_status : string;
  total_subscriptions : Z;
  processed_count : Z;
  success_count : Z;
  failure_count : Z;
  error_details : option string;
  job_started_at : datetime;
  job_completed_at : option datetime;
}.

(** Attribute assignments on a [Subscription] object. *)
Definition set_sub_status (v : SubscriptionStatus) (s : Subscription) : Subscription :=
  {| sub_id := sub_id s; sub_user_id := sub_user_id s; sub_plan_id := sub_plan_id s;
     sub_status := v; sub_started_at := sub_started_at s;
     sub_next_billing_date := sub_next_billing_date s;
     sub_cancelled_at := sub_cancelled_at s; sub_trial_ends_at := sub_trial_ends_at s;
     sub_plan := sub_plan s |}.

Definition set_sub_next_billing_date (v : datetime) (s : Subscription) : Subscription :=
  {| sub_id := sub_id s; sub_user_id := sub_user_id s; sub_plan_id := sub_plan_id s;
     sub_status := sub_status s; sub_started_at := sub_started_at s;
     sub_next_billing_date := v;
     sub_cancelled_at := sub_cancelled_at s; sub_trial_ends_at := sub_trial_ends_at s;
     sub_plan := sub_plan s |}.

Definition set_sub_cancelled_at (v : option datetime) (s : Subscription) : Subscription :=
  {| sub_id := sub_id s; sub_user_id := sub_user_id s; sub_plan_id := sub_plan_id s;
     sub_status := sub_status s; sub_started_at := sub_started_at s;
     sub_next_billing_date := sub_next_billing_date s;
     sub_cancelled_at := v; sub_trial_ends_at := sub_trial_ends_at s;
     sub_plan := sub_plan s |}.

(** ** The database session

    The tables as the session sees them.  [subscriptions] and
    [subscription_plans] are keyed by primary key; [billing_history] lists
    the rows in the order they were added. *)
Record Session := {
  subscriptions : gmap Z Subscription;
  subscription_plans : gmap Z SubscriptionPlan;
  billing_history : list BillingHistory;
}.

(** [db.add(billing_record)] *)
Definition add_billing_record (r : BillingHistory) (db : Session) : Session :=
  {| subscriptions := subscriptions db;
     subscription_plans := subscription_plans db;
     billing_history := billing_history db ++ [r] |}.

(** An assignment to an attribute of a loaded [Subscription]: the object is
    the row with its primary key. *)
Definition store_subscription (s : Subscription) (db : Session) : Session :=
  {| subscriptions := <[sub_id s := s]> (subscriptions db);
     subscription_plans := subscription_plans db;
     billing_history := billing_history db |}.

(** ** State and exceptions

    A computation over a state [S] returns a value or raises, and leaves a
    state in both cases, as a Python block does. *)
Definition M (S A : Type) : Type := S -> result A * S.

Definition ret {S A} (a : A) : M S A := fun st => (Ok a, st).

Definition raise {S A} (e : string) : M S A := fun st => (Raise e, st).

Definition bind {S A B} (m : M S A) (f : A -> M S B) : M S B :=
  fun st =>
    match m st with
    | (Ok a, st') => f a st'
    | (Raise e, st') => (Raise e, st')
    end.

#[global] Instance M_ret {S} : MRet (M S) := fun A => @ret S A.
#[global] Instance M_bind {S} : MBind (M S) := fun A B f m => @bind S A B m f.

(** [try: m  except Exception as e: h e] *)
Definition try_except {S A} (m : M S A) (h : string -> M S A) : M S A :=
  fun st =>
    match m st with
    | (Ok a, st') => (Ok a, st')
    | (Raise e, st') => h e st'
    end.

(** A computation that does not touch the state. *)
Definition from_result {S A} (r : result A) : M S A := fun st => (r, st).

Definition get {S} : M S S := fun st => (Ok st, st).
Definition modify {S} (f : S -> S) : M S unit := fun st => (Ok tt, f st).

(** [for x in l: f x] *)
Fixpoint for_each {S A} (l : list A) (f : A -> M S unit) : M S unit :=
  match l with
  | [] => ret tt
  | x :: l => f x ;; for_each l f
  end.

(** A round trip to the database that raises [e] when the environment says
    so and returns otherwise. *)
Definition round_trip {S} (outcome : option string) : M S unit :=
  match outcome with
  | Some e => raise e
  | None => ret tt
  end.

(** [await db.rollback()] gives back the session as it was when the
    transaction began. *)
Definition rollback (began : Session) : M Session unit := fun _ => (Ok tt, began).

(** ** app/services/payment_service.py *)

Record PaymentResult := {
  success : bool;
  transaction_id : option string;
  failure_reason : option string;
  processing_time_ms : Z;
}.

(** What one call of [process_payment] reads from its environment. *)
Record PaymentDraw := {
  draw_uuid : string;        (* str(uuid4()) *)
  draw_timeout : bool;       (* random.random() < 0.01, in the gateway call *)
  draw_approved : bool;      (* random.random() < success_rate *)
  draw_choice : nat;         (* the position random.choice picks *)
  draw_elapsed_ms : Z;       (* int((end_time - start_time) * 1000) *)
}.

Definition _simulate_payment_gateway_call (d : PaymentDraw) : result unit :=
  if draw_timeout d then Raise "Gateway timeout" else Ok tt.

Definition failure_reasons : list string :=
  [ "Insufficient funds";
    "Card declined";
    "Payment method expired";
    "Billing address mismatch";
    "Risk assessment failed" ].

(** [random.choice(seq)]: the element at the drawn position. *)
Definition random_choice (pick : nat) (seq : list string) : string :=
  nth (pick `mod` length seq)%nat seq "".

Definition process_payment (d : PaymentDraw)
    (user_id : Z) (amount : Decimal) (description : string) : PaymentResult :=
  let transaction_id := draw_uuid d in
  match _simulate_payment_gateway_call d with
  | Ok _ =>
      let success := draw_approved d in
      let processing_time := draw_elapsed_ms d in
      if success then
        {| success := true;
           transaction_id := Some transaction_id;
           failure_reason := None;
           processing_time_ms := processing_time |}
      else
        let failure_reason := random_choice (draw_choice d) failure_reasons in
        {| success := false;
           transaction_id := Some transaction_id;
           failure_reason := Some failure_reason;
           processing_time_ms := processing_time |}
  | Raise e =>
      {| success := false;
         transaction_id := Some transaction_id;
         failure_reason := Some ("System error: " +:+ e);
         processing_time_ms := draw_elapsed_ms d |}
  end.

(** ** app/services/billing_service.py *)

Definition _calculate_next_billing_date
    (current_date : datetime) (billing_cycle : string) : result datetime :=
  if decide (billing_cycle = "monthly") then datetime_add current_date (timedelta_days 30)
  else if decide (billing_cycle = "yearly") then datetime_add current_date (timedelta_days 365)
  else if decide (billing_cycle = "weekly") then datetime_add current_date (timedelta_days 7)
  else datetime_add current_date (timedelta_days 30).

(** What one billing attempt reads from its environment: the payment draw
    and the [datetime.utcnow()] stamped on the history row. *)
Record AttemptEnv := {
  attempt_draw : PaymentDraw;
  attempt_now : datetime;
}.

(** The f-string passed as payment description. *)
Definition billing_description (subscription : Subscription) : string :=
  "Subscription " +:+ pretty (sub_id subscription) +:+ " - "
    +:+ plan_name (sub_plan subscription).

(** The [payment_result] of the attempt on [subscription]. *)
Definition attempt_payment (env : AttemptEnv) (subscription : Subscription) : PaymentResult :=
  process_payment (attempt_draw env)
    (sub_user_id subscription)
    (plan_price (sub_plan subscription))
    (billing_description subscription).

(** The state of an attempt: the session and the [subscription] object,
    which the attempt changes in place. *)
Definition AttemptState : Type := Session * Subscription.

Definition on_session (f : Session -> Session) : M AttemptState unit :=
  modify (fun st => (f st.1, st.2)).

Definition on_subscription (f : Subscription -> Subscription) : M AttemptState unit :=
  modify (fun st => (st.1, f st.2)).

(** The [try] block.  [process_payment] handles its own exceptions and
    [db.add] does not reach the database.  After a successful payment the
    arguments of [_calculate_next_billing_date] are evaluated, of which
    [subscription.plan.billing_cycle.value] raises on a plan read from the
    database, and the date is computed, which raises when it overflows;
    the history row has been added by then and the subscription is not yet
    assigned to. *)
Definition subscription_billing_body (env : AttemptEnv) : M AttemptState bool :=
  st ← get;
  let subscription := st.2 in
  let payment_result := attempt_payment env subscription in
  let billing_record :=
    {| bh_subscription_id := sub_id subscription;
       bh_amount := plan_price (sub_plan subscription);
       bh_status := if success payment_result then SUCCESS else FAILED;
       bh_transaction_id := transaction_id payment_result;
       bh_failure_reason := failure_reason payment_result;
       bh_processed_at := attempt_now env |} in
  on_session (add_billing_record billing_record) ;;
  if success payment_result then
    billing_cycle ←
      from_result (billing_cycle_value (plan_billing_cycle (sub_plan subscription)));
    next_billing_date ←
      from_result (_calculate_next_billing_date
                     (sub_next_billing_date subscription) billing_cycle);
    on_subscription (set_sub_next_billing_date next_billing_date) ;;
    on_subscription (set_sub_status ACTIVE) ;;
    mret true
  else
    on_subscription (set_sub_status PAST_DUE) ;;
    mret false.

(** The handler logs the exception and returns [False].  The object
    belongs to the session: when the call is over, the row the session
    holds for its primary key is the object as the call leaves it. *)
Definition _process_subscription_billing
    (env : AttemptEnv) (db : Session) (subscription : Subscription)
    : result bool * Session :=
  let out :=
    try_except (subscription_billing_body env) (fun e => mret false) (db, subscription) in
  (out.1, store_subscription out.2.2 out.2.1).

(** *** The billing cycle *)

(** Attribute assignments on the [BillingJob] object. *)
Definition set_job_status (v : string) (j : BillingJob) : BillingJob :=
  {| job_id := job_id j; job_type := job_type j; job_status := v;
     total_subscriptions := total_subscriptions j;
     processed_count := processed_count j; success_count := success_count j;
     failure_count := failure_count j; error_details := error_details j;
     job_started_at := job_started_at j; job_completed_at := job_completed_at j |}.

Definition set_total_subscriptions (v : Z) (j : BillingJob) : BillingJob :=
  {| job_id := job_id j; job_type := job_type j; job_status := job_status j;
     total_subscriptions := v;
     processed_count := processed_count j; success_count := success_count j;
     failure_count := failure_count j; error_details := error_details j;
     job_started_at := job_started_at j; job_completed_at := job_completed_at j |}.

Definition set_processed_count (v : Z) (j : BillingJob) : BillingJob :=
  {| job_id := job_id j; job_type := job_type j; job_status := job_status j;
     total_subscriptions := total_subscriptions j;
     processed_count := v; success_count := success_count j;
     failure_count := failure_count j; error_details := error_details j;
     job_started_at := job_started_at j; job_completed_at := job_completed_at j |}.

Definition set_success_count (v : Z) (j : BillingJob) : BillingJob :=
  {| job_id := job_id j; job_type := job_type j; job_status := job_status j;
     total_subscriptions := total_subscriptions j;
     processed_count := processed_count j; success_count := v;
     failure_count := failure_count j; error_details := error_details j;
     job_started_at := job_started_at j; job_completed_at := job_completed_at j |}.

Definition set_failure_count (v : Z) (j : BillingJob) : BillingJob :=
  {| job_id := job_id j; job_type := job_type j; job_status := job_status j;
     total_subscriptions := total_subscriptions j;
     processed_count := processed_count j; success_count := success_count j;
     failure_count := v; error_details := error_details j;
     job_started_at := job_started_at j; job_completed_at := job_completed_at j |}.

Definition set_error_details (v : option string) (j : BillingJob) : BillingJob :=
  {| job_id := job_id j; job_type := job_type j; job_status := job_status j;
     total_subscriptions := total_subscriptions j;
     processed_count := processed_count j; success_count := success_count j;
     failure_count := failure_count j; error_details := v;
     job_started_at := job_started_at j; job_completed_at := job_completed_at j |}.

Definition set_job_completed_at (v : option datetime) (j : BillingJob) : BillingJob :=
  {| job_id := job_id j; job_type := job_type j; job_status := job_status j;
     total_subscriptions := total_subscriptions j;
     processed_count := processed_count j; success_count := success_count j;
     failure_count := failure_count j; error_details := error_details j;
     job_started_at := job_started_at j; job_completed_at := v |}.

(** [BillingJob(job_id=..., job_type=..., status=..., started_at=...)]; the
    other columns take their declared defaults. *)
Definition new_billing_job (id : string) (started_at : datetime) : BillingJob :=
  {| job_id := id; job_type := "billing_cycle"; job_status := "running";
     total_subscriptions := 0; processed_count := 0; success_count := 0;
     failure_count := 0; error_details := None;
     job_started_at := started_at; job_completed_at := None |}.

(** The round trips of one billing cycle, by the place they occur. *)
Inductive CyclePoint :=
| InsertJob                (* db.add(job); await db.commit() *)
| SelectDue                (* the query of the due subscriptions *)
| CommitTotal              (* the commit after job.total_subscriptions *)
| CommitBatch (i : nat)    (* the commit closing the batch that starts at i *)
| CommitCompleted          (* the commit after job.status = "completed" *)
| UpdateFailed             (* the UPDATE of the handler *)
| CommitFailed.            (* the commit of the handler *)

(** What one run of the billing cycle reads from its environment. *)
Record CycleEnv := {
  cycle_started_at : datetime;          (* utcnow() at the job's creation *)
  cycle_today : datetime;               (* utcnow() whose date bounds the query *)
  cycle_completed_at : datetime;        (* utcnow() at completion *)
  cycle_failed_at : datetime;           (* utcnow() in the handler *)
  cycle_attempt : Z -> AttemptEnv;      (* the reads of the attempt on a subscription id *)
  cycle_latency : Z -> Z;               (* the time its payment takes, the sleeps of the gateway call *)
  cycle_io : CyclePoint -> option string;
}.

(** The state of a run: the session, the [job] object, and the versions of
    the job row that the successful commits have written, oldest first. *)
Record CycleState := {
  cs_db : Session;
  cs_job : BillingJob;
  cs_rows : list BillingJob;
}.

Definition modify_job (f : BillingJob -> BillingJob) : M CycleState unit :=
  modify (fun st => {| cs_db := cs_db st; cs_job := f (cs_job st); cs_rows := cs_rows st |}).

(** [await db.commit()]: the job object is written to its row. *)
Definition commit (env : CycleEnv) (p : CyclePoint) : M CycleState unit :=
  round_trip (cycle_io env p) ;;
  modify (fun st =>
    {| cs_db := cs_db st; cs_job := cs_job st; cs_rows := cs_rows st ++ [cs_job st] |}).

(** The [WHERE] clause of the query. *)
Definition due_for_billing (today : datetime) (s : Subscription) : bool :=
  bool_decide (sub_status s = ACTIVE) && bool_decide (sub_next_billing_date s <= today).

(** [result.scalars().all()] of the query: the due rows, in the order the
    table yields them. *)
Definition select_due (today : datetime) (db : Session) : list Subscription :=
  List.filter (due_for_billing today) (map snd (map_to_list (subscriptions db))).

Definition execute_select_due (env : CycleEnv) : M CycleState (list Subscription) :=
  round_trip (cycle_io env SelectDue) ;;
  st ← get;
  ret (select_due (date_of (cycle_today env)) (cs_db st)).

(** [range(start, stop, step)] for a positive [step]; [stop] steps are
    enough to reach [stop]. *)
Fixpoint range_from (fuel start stop step : nat) : list nat :=
  match fuel with
  | O => []
  | S fuel =>
      if (start <? stop)%nat
      then start :: range_from fuel (start + step) stop step
      else []
  end.

Definition range (start stop step : nat) : list nat :=
  range_from stop start stop step.

(** [l[i:j]] for [0 <= i <= j] *)
Definition slice {A} (l : list A) (i j : nat) : list A := take (j - i) (drop i l).

Definition batch_size : nat := 10.

(** The batches the loop of [process_billing_cycle_async] forms. *)
Definition batches {A} (l : list A) : list (list A) :=
  map (fun i => slice l i (i + batch_size)) (range 0 (length l) batch_size).

(** [x] put into [l], sorted by [key], before the first element whose key
    is not smaller. *)
Fixpoint insert_by_key {A} (key : A -> Z) (x : A) (l : list A) : list A :=
  match l with
  | [] => [x]
  | y :: l' => if decide (key x <= key y) then x :: l else y :: insert_by_key key x l'
  end.

(** [l] sorted by [key]; elements of equal key keep their order. *)
Definition sort_by_key {A} (key : A -> Z) (l : list A) : list A :=
  foldr (insert_by_key key) [] l.

(** The order in which the tasks of a batch come back from their payment.
    The tasks start together and each sleeps the time its gateway call
    takes: the task whose payment is shorter comes back first. *)
Definition completion_order (env : CycleEnv) (batch : list Subscription)
    : list Subscription :=
  sort_by_key (fun subscription => cycle_latency env (sub_id subscription)) batch.

(** The session after the tasks [tasks] have come back from their
    payments, in this order. *)
Definition complete_tasks (env : CycleEnv) (tasks : list Subscription) (db : Session)
    : Session :=
  foldl (fun db subscription =>
           (_process_subscription_billing (cycle_attempt env (sub_id subscription))
              db subscription).2)
        db tasks.

(** [await asyncio.gather( *tasks, return_exceptions=True)]: one result per
    task, in the order of the tasks; a task that raises contributes its
    exception.  A task awaits nothing after its payment, so what it does to
    the session (the history row, the assignments) is done in one piece
    when its payment comes back: the session is changed by the tasks in
    the order of completion.  What a task returns does not depend on the
    session (lemma [attempt_returns]), so each result is read off its task. *)
Definition gather (env : CycleEnv) (batch : list Subscription) (db : Session)
    : Session * list (result bool) :=
  (complete_tasks env (completion_order env batch) db,
   map (fun subscription =>
          (_process_subscription_billing (cycle_attempt env (sub_id subscription))
             db subscription).1)
       batch).

Definition gather_batch (env : CycleEnv) (batch : list Subscription)
    : M CycleState (list (result bool)) :=
  fun st =>
    let '(db, rs) := gather env batch (cs_db st) in
    (Ok rs, {| cs_db := db; cs_job := cs_job st; cs_rows := cs_rows st |}).

(** The body of [for result in results]. *)
Definition record_result (r : result bool) (job : BillingJob) : BillingJob :=
  let job := set_processed_count (processed_count job + 1) job in
  match r with
  | Raise _ => set_failure_count (failure_count job + 1) job
  | Ok _ => set_success_count (success_count job + 1) job
  end.

(** The body of [for i in range(0, len(subscriptions), batch_size)]; the
    [asyncio.sleep(0.1)] that ends it only lets time pass. *)
Definition process_batch (env : CycleEnv) (subscriptions : list Subscription) (i : nat)
    : M CycleState unit :=
  let batch := slice subscriptions i (i + batch_size) in
  results ← gather_batch env batch;
  for_each results (fun r => modify_job (record_result r)) ;;
  commit env (CommitBatch i).

(** The [try] block. *)
Definition billing_cycle_body (env : CycleEnv) : M CycleState unit :=
  commit env InsertJob ;;
  subscriptions ← execute_select_due env;
  modify_job (set_total_subscriptions (Z.of_nat (length subscriptions))) ;;
  commit env CommitTotal ;;
  for_each (range 0 (length subscriptions) batch_size)
    (process_batch env subscriptions) ;;
  modify_job (set_job_status "completed") ;;
  modify_job (set_job_completed_at (Some (cycle_completed_at env))) ;;
  commit env CommitCompleted.

(** The [values] clause of the handler's UPDATE. *)
Definition fail_job (env : CycleEnv) (e : string) (row : BillingJob) : BillingJob :=
  set_job_completed_at (Some (cycle_failed_at env))
    (set_error_details (Some e) (set_job_status "failed" row)).

(** The [UPDATE billing_jobs SET ... WHERE job_id = :job_id] of the handler,
    applied to the row as last committed; no row, nothing to update. *)
Definition mark_failed (env : CycleEnv) (e : string) (rows : list BillingJob)
    : list BillingJob :=
  match last rows with
  | Some row => rows ++ [fail_job env e row]
  | None => rows
  end.

(** The [except] block. *)
Definition billing_cycle_handler (env : CycleEnv) (e : string) : M CycleState unit :=
  round_trip (cycle_io env UpdateFailed) ;;
  round_trip (cycle_io env CommitFailed) ;;
  modify (fun st =>
    {| cs_db := cs_db st; cs_job := cs_job st;
       cs_rows := mark_failed env e (cs_rows st) |}).

Definition process_billing_cycle_async
    (env : CycleEnv) (id : string) (db : Session) : result unit * CycleState :=
  try_except (billing_cycle_body env) (billing_cycle_handler env)
    {| cs_db := db;
       cs_job := new_billing_job id (cycle_started_at env);
       cs_rows := [] |}.

(** The job row when the run is over. *)
Definition final_job (run : result unit * CycleState) : option BillingJob :=
  last (cs_rows (snd run)).

(** *** cancel_subscription *)

Record CancelEnv := {
  cancel_now : datetime;                   (* utcnow() *)
  cancel_select : option string;           (* the exception of the SELECT, if any *)
  cancel_commit : option string;           (* the exception of the commit, if any *)
}.

Definition cancel_subscription_body (env : CancelEnv) (subscription_id : Z)
    : M Session bool :=
  round_trip (cancel_select env) ;;
  db ← get;
  match subscriptions db !! subscription_id with
  | None => ret false
  | Some subscription =>
      let subscription := set_sub_status CANCELLED subscription in
      let subscription := set_sub_cancelled_at (Some (cancel_now env)) subscription in
      modify (fun db =>
        {| subscriptions := <[subscription_id := subscription]> (subscriptions db);
           subscription_plans := subscription_plans db;
           billing_history := billing_history db |}) ;;
      round_trip (cancel_commit env) ;;
      ret true
  end.

(** The transaction begins with the call. *)
Definition cancel_subscription (env : CancelEnv) (db : Session) (subscription_id : Z)
    : result bool * Session :=
  try_except (cancel_subscription_body env subscription_id)
    (fun e => rollback db ;; mret false) db.

(** *** create_subscription *)

(** app/schemas.py: [trial_days_override: Optional[int] = Field(default=None, ge=0)] *)
Record SubscriptionCreate := {
  sc_user_id : Z;
  sc_plan_id : Z;
  sc_status : SubscriptionStatus;
  sc_trial_days_override : option Z;
}.

Definition SubscriptionCreate_valid (d : SubscriptionCreate) : Prop :=
  match sc_trial_days_override d with
  | Some n => 0 <= n
  | None => True
  end.

Record CreateEnv := {
  create_now : datetime;              (* utcnow() *)
  create_id : Z;                      (* the primary key the INSERT assigns *)
  create_select : option string;      (* the exception of the SELECT, if any *)
  create_commit : option string;      (* the exception of the commit, if any *)
  create_refresh : option string;     (* the exception of the refresh, if any *)
}.

(** [x or y] on [Optional[int]]: [None] and [0] are falsy. *)
Definition or_int (x : option Z) (y : Z) : Z :=
  match x with
  | Some n => if decide (n = 0) then y else n
  | None => y
  end.

(** [plan_result.scalar_one()] for a query by primary key. *)
Definition scalar_one {S A} (row : option A) : M S A :=
  match row with
  | Some a => ret a
  | None => raise "No row was found when one was required"
  end.

(** The session of a transaction: the tables as the session sees them and
    as the last commit left them. *)
Record Transaction := {
  tx_session : Session;
  tx_committed : Session;
}.

Definition tx_modify (f : Session -> Session) : M Transaction unit :=
  modify (fun t => {| tx_session := f (tx_session t); tx_committed := tx_committed t |}).

(** [await db.commit()] *)
Definition tx_commit (outcome : option string) : M Transaction unit :=
  round_trip outcome ;;
  modify (fun t => {| tx_session := tx_session t; tx_committed := tx_session t |}).

(** [await db.rollback()] *)
Definition tx_rollback : M Transaction unit :=
  modify (fun t => {| tx_session := tx_committed t; tx_committed := tx_committed t |}).

(** Lines 35 to 59: the dates and the [Subscription] object.  The sums can
    overflow, and [plan.billing_cycle.value] raises on a plan read from the
    database. *)
Definition new_subscription (env : CreateEnv) (subscription_data : SubscriptionCreate)
    (plan : SubscriptionPlan) : result Subscription :=
  let now := create_now env in
  let trial_days :=
    or_int (sc_trial_days_override subscription_data) (plan_trial_days plan) in
  dates ←
    (if decide (trial_days > 0) then
       delta ← timedelta trial_days;
       trial_ends_at ← datetime_add now delta;
       let next_billing_date := trial_ends_at in
       mret (next_billing_date, Some trial_ends_at)
     else
       next_billing_date ←
         (billing_cycle ← billing_cycle_value (plan_billing_cycle plan);
          if decide (billing_cycle = "monthly") then datetime_add now (timedelta_days 30)
          else
            billing_cycle ← billing_cycle_value (plan_billing_cycle plan);
            if decide (billing_cycle = "yearly") then datetime_add now (timedelta_days 365)
            else datetime_add now (timedelta_days 7));
       mret (next_billing_date, None));
  mret {| sub_id := create_id env;
          sub_user_id := sc_user_id subscription_data;
          sub_plan_id := sc_plan_id subscription_data;
          sub_status := sc_status subscription_data;
          sub_started_at := now;
          sub_next_billing_date := dates.1;
          sub_cancelled_at := None;
          sub_trial_ends_at := dates.2;
          sub_plan := plan |}.

(** The [try] block. *)
Definition create_subscription_body (env : CreateEnv) (subscription_data : SubscriptionCreate)
    : M Transaction Subscription :=
  round_trip (create_select env) ;;
  t ← get;
  plan ← scalar_one (subscription_plans (tx_session t) !! sc_plan_id subscription_data);
  subscription ← from_result (new_subscription env subscription_data plan);
  tx_modify (store_subscription subscription) ;;
  tx_commit (create_commit env) ;;
  round_trip (create_refresh env) ;;
  mret subscription.

(** The handler rolls back and raises again; the transaction begins with
    the call.  A commit that has succeeded stays, whatever the refresh
    does. *)
Definition create_subscription (env : CreateEnv) (db : Session)
    (subscription_data : SubscriptionCreate) : result Subscription * Session :=
  let out :=
    try_except (create_subscription_body env subscription_data)
      (fun e => tx_rollback ;; raise e)
      {| tx_session := db; tx_committed := db |} in
  (out.1, tx_session out.2).

(** *** process_initial_billing *)

Record InitialEnv := {
  initial_select : option string;     (* the exception of the SELECT, if any *)
  initial_attempt : AttemptEnv;       (* the reads of the billing attempt *)
}.

(** [await self._process_subscription_billing(db, subscription)] *)
Definition billing_attempt (env : AttemptEnv) (subscription : Subscription)
    : M Session bool :=
  fun db => _process_subscription_billing env db subscription.

(** The [try] block; [not subscription.trial_ends_at] holds of [None] only,
    a [datetime] being true. *)
Definition process_initial_billing_body (env : InitialEnv) (subscription_id : Z)
    : M Session unit :=
  round_trip (initial_select env) ;;
  db ← get;
  match subscriptions db !! subscription_id with
  | None => mret tt
  | Some subscription =>
      match sub_trial_ends_at subscription with
      | None => billing_attempt (initial_attempt env) subscription ;; mret tt
      | Some _ => mret tt
      end
  end.

(** The session of the task as the [async with] block leaves it; the
    handler logs the exception and the function returns. *)
Definition process_initial_billing (env : InitialEnv) (db : Session) (subscription_id : Z)
    : result unit * Session :=
  try_except (process_initial_billing_body env subscription_id) (fun e => mret tt) db.

(** *** get_job_status *)

(** The dictionary [get_job_status] returns, by key. *)
Record JobStatus := {
  js_job_id : string;
  js_status : string;
  js_total_subscriptions : Z;
  js_processed : Z;
  js_successful : Z;
  js_failed : Z;
  js_started_at : datetime;
  js_completed_at : option datetime;
  js_error_details : option string;
}.

(** [billing_jobs] is the table the query reads, keyed by the unique
    [job_id]; the function changes nothing. *)
Definition get_job_status_body (select : option string) (id : string)
    : M (gmap string BillingJob) (option JobStatus) :=
  round_trip select ;;
  billing_jobs ← get;
  match billing_jobs !! id with
  | None => mret None
  | Some job =>
      mret (Some {| js_job_id := job_id job;
                    js_status := job_status job;
                    js_total_subscriptions := total_subscriptions job;
                    js_processed := processed_count job;
                    js_successful := success_count job;
                    js_failed := failure_count job;
                    js_started_at := job_started_at job;
                    js_completed_at := job_completed_at job;
                    js_error_details := error_details job |})
  end.

Definition get_job_status (select : option string) (billing_jobs : gmap string BillingJob)
    (id : string) : result (option JobStatus) :=
  (try_except (get_job_status_body select id) (fun e => mret None) billing_jobs).1.

(** ** app/services/payment_service.py, refunds *)

(** [refund_payment] reads the gateway draw, [random.random() < 0.95] as
    [draw_approved] and the [uuid4] of the refund as [draw_uuid]; the fields
    it does not set keep their defaults. *)
Definition refund_payment (d : PaymentDraw)
    (transaction_id : string) (amount : option Decimal) : PaymentResult :=
  match _simulate_payment_gateway_call d with
  | Ok _ =>
      let success := draw_approved d in
      if success then
        let refund_id := draw_uuid d in
        {| success := true;
           transaction_id := Some refund_id;
           failure_reason := None;
           processing_time_ms := 0 |}
      else
        {| success := false;
           transaction_id := None;
           failure_reason :=
             Some "Original transaction not found or not eligible for refund";
           processing_time_ms := 0 |}
  | Raise e =>
      {| success := false;
         transaction_id := None;
         failure_reason := Some ("System error: " +:+ e);
         processing_time_ms := 0 |}
  end.

(** ** app/main.py *)

(** A route function returns its body or raises
    [HTTPException(status_code, detail)]; the client receives a body or an
    error with a status code. *)
Inductive http (A : Type) : Type :=
| Respond (body : A)
| HTTPException (status_code : Z) (detail : string).
Arguments Respond {A} body.
Arguments HTTPException {A} status_code detail.

(** What the client receives for what the route function does.  The
    handlers registered with [@app.exception_handler(404)] and
    [@app.exception_handler(422)] return an [ErrorResponse], which is a
    pydantic model and not a response: the server cannot send it and the
    request ends in the error of the server, 500 "Internal Server Error".
    An [HTTPException] with another status code is answered with that code
    and its detail. *)
Definition sent_to_client {A} (r : http A) : http A :=
  match r with
  | Respond body => Respond body
  | HTTPException status_code detail =>
      if decide (status_code = 404 \/ status_code = 422)
      then HTTPException 500 "Internal Server Error"
      else HTTPException status_code detail
  end.

(** [SuccessResponse(message=...)]; [data] keeps its default [None]. *)
Record SuccessResponse := {
  sr_message : string;
  sr_timestamp : datetime;
}.

(** The route function of [PATCH /subscriptions/{subscription_id}/cancel]:
    what it returns or raises, and the session. *)
Definition cancel_subscription_route (env : CancelEnv) (timestamp : datetime)
    (db : Session) (subscription_id : Z) : http SuccessResponse * Session :=
  match cancel_subscription env db subscription_id with
  | (Ok success, db) =>
      if negb success
      then (HTTPException 404 "Subscription not found", db)
      else (Respond {| sr_message := "Subscription cancelled successfully";
                       sr_timestamp := timestamp |}, db)
  | (Raise e, db) => (HTTPException 500 "Internal server error", db)
  end.

(** The route function of [GET /billing/jobs/{job_id}]: what it returns or
    raises; a dictionary with keys is true. *)
Definition get_billing_job_status_route (select : option string)
    (billing_jobs : gmap string BillingJob) (id : string) : http JobStatus :=
  match get_job_status select billing_jobs id with
  | Ok job_status =>
      match job_status with
      | None => HTTPException 404 "Job not found"
      | Some job_status => Respond job_status
      end
  | Raise e => HTTPException 500 "Internal server error"
  end.

Record User := {
  usr_id : Z;
  usr_email : string;
  usr_name : string;
  usr_is_active : bool;
  usr_created_at : datetime;
  usr_updated_at : datetime;
}.

Record CreateRouteEnv := {
  route_select_user : option string;   (* the exception of the SELECT on users *)
  route_select_plan : option string;   (* the exception of the SELECT on plans *)
  route_create : CreateEnv;            (* the reads of the service *)
}.

(** The route function of [POST /subscriptions/]: what it returns or
    raises, the argument of the [process_initial_billing] task it
    schedules, and the session.  An [HTTPException] passes through; any
    other exception becomes a 500, the session being rolled back where it
    raised. *)
Definition create_subscription_route (env : CreateRouteEnv) (users : gmap Z User)
    (db : Session) (subscription : SubscriptionCreate)
    : http Subscription * option Z * Session :=
  match route_select_user env with
  | Some e => (HTTPException 500 "Internal server error", None, db)
  | None =>
      match users !! sc_user_id subscription with
      | None => (HTTPException 404 "User not found", None, db)
      | Some user =>
          match route_select_plan env with
          | Some e => (HTTPException 500 "Internal server error", None, db)
          | None =>
              match subscription_plans db !! sc_plan_id subscription with
              | None => (HTTPException 404 "Subscription plan not found", None, db)
              | Some plan =>
                  match create_subscription (route_create env) db subscription with
                  | (Ok db_subscription, db') =>
                      (Respond db_subscription, Some (sub_id db_subscription), db')
                  | (Raise e, db') =>
                      (HTTPException 500 "Internal server error", None, db')
                  end
              end
          end
      end
  end.

(** [result.scalar_one_or_none()] on the rows a query yields. *)
Definition scalar_one_or_none {A} (rows : list A) : result (option A) :=
  match rows with
  | [] => Ok None
  | [row] => Ok (Some row)
  | _ => Raise "Multiple rows were found when one or none was required"
  end.

(** app/schemas.py: [UserCreate] *)
Record UserCreate := {
  uc_email : string;
  uc_name : string;
}.

Record CreateUserEnv := {
  new_user_id : Z;                      (* the primary key the INSERT assigns *)
  new_user_now : datetime;              (* utcnow() of the column defaults *)
  new_user_select : option string;      (* the exception of the SELECT, if any *)
  new_user_commit : option string;      (* the exception of the commit, if any *)
  new_user_refresh : option string;     (* the exception of the refresh, if any *)
}.

(** The rows of [select(User).where(User.email == email)]. *)
Definition users_with_email (email : string) (users : gmap Z User) : list User :=
  List.filter (fun u => bool_decide (usr_email u = email)) (map snd (map_to_list users)).

(** [POST /users/]: the response and the table of users.  A commit that
    has succeeded stays, whatever the refresh does. *)
Definition create_user (env : CreateUserEnv) (users : gmap Z User) (user : UserCreate)
    : http User * gmap Z User :=
  match new_user_select env with
  | Some e => (HTTPException 500 "Internal server error", users)
  | None =>
      match scalar_one_or_none (users_with_email (uc_email user) users) with
      | Raise e => (HTTPException 500 "Internal server error", users)
      | Ok (Some _) => (HTTPException 400 "Email already registered", users)
      | Ok None =>
          let db_user :=
            {| usr_id := new_user_id env;
               usr_email := uc_email user;
               usr_name := uc_name user;
               usr_is_active := true;
               usr_created_at := new_user_now env;
               usr_updated_at := new_user_now env |} in
          match new_user_commit env with
          | Some e => (HTTPException 500 "Internal server error", users)
          | None =>
              let users := <[new_user_id env := db_user]> users in
              match new_user_refresh env with
              | Some e => (HTTPException 500 "Internal server error", users)
              | None => (Respond db_user, users)
              end
          end
      end
  end.

(** No two users share an email, the [unique] constraint of the column. *)
Definition unique_emails (users : gmap Z User) : Prop :=
  forall k1 k2 u1 u2,
    users !! k1 = Some u1 -> users !! k2 = Some u2 ->
    usr_email u1 = usr_email u2 -> k1 = k2.

(** ** app/config.py *)

(** A value of [model_dump()]: the settings are strings, booleans and
    integers. *)
Inductive ConfigValue :=
| CfgStr (s : string)
| CfgBool (b : bool)
| CfgInt (n : Z).

(** The truth value of [config.get(key)]. *)
Definition truthy (v : option ConfigValue) : bool :=
  match v with
  | None => false
  | Some (CfgStr s) => negb (String.eqb s "")
  | Some (CfgBool b) => b
  | Some (CfgInt n) => negb (n =? 0)
  end.

Definition sensitive_keys : list string :=
  [ "stripe_secret_key";
    "paypal_client_secret";
    "secret_key";
    "database_url";
    "redis_url" ].

Definition masked : ConfigValue := CfgStr "***MASKED***".

(** [get_masked_config], on the dictionary [self.model_dump()] gives. *)
Definition get_masked_config (model_dump : gmap string ConfigValue)
    : gmap string ConfigValue :=
  foldl (fun config key =>
           if truthy (config !! key) then <[key := masked]> config else config)
        model_dump sensitive_keys.

(** ** migration-tools/data_migrator.py *)

Record MigrationResult := {
  mr_success : bool;
  mr_records_processed : Z;
  mr_records_migrated : Z;
  mr_errors : list string;
  mr_processing_time : Z;     (* the elapsed time read from the clock *)
}.

(** What [migrate_all_data] gets from the steps it awaits: the result of
    each step function, by the name of the step, and of the integrity
    check; a step may raise. *)
Record MigrationEnv := {
  step_result : string -> result MigrationResult;
  integrity_result : result MigrationResult;
}.

Definition migration_steps : list string :=
  [ "users"; "subscription_plans"; "subscriptions"; "billing_history" ].

(** The loop over the steps, with its [break]; [results] is the dictionary,
    in insertion order. *)
Fixpoint run_migration_steps (env : MigrationEnv) (steps : list string)
    (results : list (string * MigrationResult))
    : result (list (string * MigrationResult)) :=
  match steps with
  | [] => Ok results
  | step_name :: steps =>
      match step_result env step_name with
      | Raise e => Raise e
      | Ok r =>
          let results := results ++ [(step_name, r)] in
          if negb (mr_success r) then Ok results
          else run_migration_steps env steps results
      end
  end.

(** The handler raises the exception again. *)
Definition migrate_all_data (env : MigrationEnv)
    : result (list (string * MigrationResult)) :=
  match run_migration_steps env migration_steps [] with
  | Raise e => Raise e
  | Ok results =>
      if forallb (fun kv => mr_success kv.2) results then
        match integrity_result env with
        | Raise e => Raise e
        | Ok integrity_check => Ok (results ++ [("integrity_check", integrity_check)])
        end
      else Ok results
  end.

(** What [verify_migration_integrity] reads: the [COUNT] of each table in
    the legacy and in the modern database, the count of subscriptions
    without user, and the elapsed time; a query may raise. *)
Record IntegrityEnv := {
  legacy_count : string -> result Z;
  modern_count : string -> result Z;
  orphaned_subs : result Z;
  integrity_time : Z;
}.

Definition count_tables : list string :=
  [ "users"; "subscriptions"; "subscription_plans"; "billing_history" ].

(** [_get_legacy_counts] and [_get_modern_counts]: the dictionary of the
    counts, in the order of [tables]. *)
Fixpoint get_counts (count : string -> result Z) (tables : list string)
    : result (list (string * Z)) :=
  match tables with
  | [] => Ok []
  | table :: tables =>
      match count table with
      | Raise e => Raise e
      | Ok c =>
          match get_counts count tables with
          | Raise e => Raise e
          | Ok counts => Ok ((table, c) :: counts)
          end
      end
  end.

(** [counts.get(table, 0)] *)
Fixpoint dict_get (counts : list (string * Z)) (table : string) (default : Z) : Z :=
  match counts with
  | [] => default
  | (t, c) :: counts => if String.eqb t table then c else dict_get counts table default
  end.

(** The loop that compares the counts. *)
Definition count_mismatches (legacy_counts modern_counts : list (string * Z))
    : list string :=
  flat_map
    (fun '(table, legacy_count) =>
       let modern_count := dict_get modern_counts table 0 in
       if negb (legacy_count =? modern_count) then
         [ "Count mismatch in " +:+ table +:+ ": legacy=" +:+ pretty legacy_count
             +:+ ", modern=" +:+ pretty modern_count ]
       else [])
    legacy_counts.

Definition _verify_foreign_key_integrity (env : IntegrityEnv) : result unit :=
  match orphaned_subs env with
  | Raise e => Raise e
  | Ok n =>
      if n >? 0 then Raise "Found orphaned subscriptions without valid users"
      else Ok tt
  end.

Definition verify_migration_integrity (env : IntegrityEnv) : MigrationResult :=
  let finish (legacy_counts : option (list (string * Z))) (errors : list string) :=
    {| mr_success := (length errors =? 0)%nat;
       mr_records_processed :=
         match legacy_counts with
         | Some counts => foldr Z.add 0 (map snd counts)
         | None => 0
         end;
       mr_records_migrated := 0;
       mr_errors := errors;
       mr_processing_time := integrity_time env |} in
  let handler (e : string) := [ "Integrity verification error: " +:+ e ] in
  match get_counts (legacy_count env) count_tables with
  | Raise e => finish None (handler e)
  | Ok legacy_counts =>
      match get_counts (modern_count env) count_tables with
      | Raise e => finish (Some legacy_counts) (handler e)
      | Ok modern_counts =>
          let errors := count_mismatches legacy_counts modern_counts in
          match _verify_foreign_key_integrity env with
          | Raise e => finish (Some legacy_counts) (errors ++ handler e)
          | Ok _ => finish (Some legacy_counts) errors
          end
      end
  end.

(** *** The migration steps

    A data frame is the list of its rows.  What a step gets from the calls
    it makes: the outcome of [pd.read_sql], of the transformation of the
    frame read, of its validation and of the batch insert, and the elapsed
    time. *)
Record MigrationConfig := {
  cfg_batch_size : Z;
  cfg_validate_data : bool;
  cfg_dry_run : bool;
}.

Record StepEnv (A B : Type) := {
  read_sql : result (list A);
  transform_data : list A -> result (list B);
  validate_data : list B -> result (list string);
  batch_insert : list B -> result Z;
  elapsed : Z;
}.
Arguments read_sql {A B} _.
Arguments transform_data {A B} _ _.
Arguments validate_data {A B} _ _.
Arguments batch_insert {A B} _ _.
Arguments elapsed {A B} _.

(** The local variables of a step where its [try] statement ends; [None]
    is a variable not yet assigned. *)
Record StepLocals := {
  loc_records_processed : option Z;
  loc_records_migrated : option Z;
  loc_errors : list string;
}.

(** The load of a step: the batch insert, or the count of a dry run. *)
Definition load_step {B} (config : MigrationConfig) (insert : list B -> result Z)
    (transformed_data : list B) : result Z :=
  if negb (cfg_dry_run config) then insert transformed_data
  else Ok (Z.of_nat (length transformed_data)).

(** [migrate_users]: [records_processed] and [records_migrated] are set to
    0 before the [try] statement. *)
Definition migrate_users {A B} (config : MigrationConfig) (env : StepEnv A B)
    : MigrationResult :=
  let handler (records_processed : Z) (e : string) :=
    {| mr_success := false;
       mr_records_processed := records_processed;
       mr_records_migrated := 0;
       mr_errors := ["User migration error: " +:+ e];
       mr_processing_time := elapsed env |} in
  let load (records_processed : Z) (transformed_data : list B) :=
    match load_step config (batch_insert env) transformed_data with
    | Raise e => handler records_processed e
    | Ok records_migrated =>
        {| mr_success := true;
           mr_records_processed := records_processed;
           mr_records_migrated := records_migrated;
           mr_errors := [];
           mr_processing_time := elapsed env |}
    end in
  match read_sql env with
  | Raise e => handler 0 e
  | Ok legacy_data =>
      let records_processed := Z.of_nat (length legacy_data) in
      match transform_data env legacy_data with
      | Raise e => handler records_processed e
      | Ok transformed_data =>
          if cfg_validate_data config then
            match validate_data env transformed_data with
            | Raise e => handler records_processed e
            | Ok validation_errors =>
                match validation_errors with
                | [] => load records_processed transformed_data
                | _ =>
                    {| mr_success := false;
                       mr_records_processed := records_processed;
                       mr_records_migrated := 0;
                       mr_errors := validation_errors;
                       mr_processing_time := 0 |}
                end
            end
          else load records_processed transformed_data
      end
  end.

(** The [try] statement of [migrate_subscription_plans]: [legacy_data] and
    [records_migrated] are first assigned inside it. *)
Definition migrate_subscription_plans_try {A B} (config : MigrationConfig)
    (env : StepEnv A B) : StepLocals :=
  let handler (records_processed records_migrated : option Z) (e : string) :=
    {| loc_records_processed := records_processed;
       loc_records_migrated := records_migrated;
       loc_errors := ["Plan migration error: " +:+ e] |} in
  match read_sql env with
  | Raise e => handler None None e
  | Ok legacy_data =>
      let records_processed := Some (Z.of_nat (length legacy_data)) in
      match transform_data env legacy_data with
      | Raise e => handler records_processed None e
      | Ok transformed_data =>
          match load_step config (batch_insert env) transformed_data with
          | Raise e => handler records_processed (Some 0) e
          | Ok records_migrated =>
              {| loc_records_processed := records_processed;
                 loc_records_migrated := Some records_migrated;
                 loc_errors := [] |}
          end
      end
  end.

(** The [return] statement: [len(legacy_data) if 'legacy_data' in
    locals() else 0] guards one variable, [records_migrated] is read as it
    is. *)
Definition migrate_subscription_plans {A B} (config : MigrationConfig)
    (env : StepEnv A B) : result MigrationResult :=
  let locals := migrate_subscription_plans_try config env in
  match loc_records_migrated locals with
  | None => Raise "UnboundLocalError: records_migrated"
  | Some records_migrated =>
      Ok {| mr_success := (length (loc_errors locals) =? 0)%nat;
            mr_records_processed := default 0 (loc_records_processed locals);
            mr_records_migrated := records_migrated;
            mr_errors := loc_errors locals;
            mr_processing_time := elapsed env |}
  end.

(** ** The rows of a run

    The versions of the job row that a run over [n] due subscriptions
    writes when every commit succeeds; they are used to describe the runs
    in the proofs. *)

(** The job while running, [k] results recorded. *)
Definition running_job (id : string) (started_at : datetime) (n k : Z) : BillingJob :=
  {| job_id := id; job_type := "billing_cycle"; job_status := "running";
     total_subscriptions := n; processed_count := k; success_count := k;
     failure_count := 0; error_details := None;
     job_started_at := started_at; job_completed_at := None |}.

(** The rows written by the batch commits from the batch starting at
    [start] on. *)
Definition batch_rows (id : string) (started_at : datetime) (n fuel start : nat)
    : list BillingJob :=
  map (fun i => running_job id started_at (Z.of_nat n)
                  (Z.of_nat (Nat.min (i + batch_size) n)))
      (range_from fuel start n batch_size).

Definition running_rows (env : CycleEnv) (id : string) (n : nat) : list BillingJob :=
  new_billing_job id (cycle_started_at env)
    :: running_job id (cycle_started_at env) (Z.of_nat n) 0
    :: batch_rows id (cycle_started_at env) n n 0.

Definition completed_job (env : CycleEnv) (id : string) (n : nat) : BillingJob :=
  set_job_completed_at (Some (cycle_completed_at env))
    (set_job_status "completed"
       (running_job id (cycle_started_at env) (Z.of_nat n) (Z.of_nat n))).

(** The state of a job row: counters consistent and within the total. *)
Definition counters_consistent (j : BillingJob) : Prop :=
  processed_count j = success_count j + failure_count j
  /\ 0 <= processed_count j <= total_subscriptions j.

Definition terminal (j : BillingJob) : Prop :=
  job_status j = "completed" \/ job_status j = "failed".

(** What holds of every row that precedes the completed one. *)
Definition running_row (j : BillingJob) : Prop :=
  job_status j = "running"
  /\ failure_count j = 0
  /\ success_count j = processed_count j
  /\ 0 <= processed_count j <= total_subscriptions j.

(** The days of a billing cycle. *)
Definition cycle_days (c : BillingCycle) : Z :=
  match c with
  | WEEKLY => 7
  | MONTHLY => 30
  | YEARLY => 365
  end.

(** The date a successful payment moves the subscription to, when its
    computation returns. *)
Definition advanced_date (s : Subscription) : result datetime :=
  billing_cycle ← billing_cycle_value (plan_billing_cycle (sub_plan s));
  _calculate_next_billing_date (sub_next_billing_date s) billing_cycle.

(** The subscription, the value and the history row that the attempt on
    [s] leaves; they are used to describe the sessions in the proofs. *)
Definition billed (env : AttemptEnv) (s : Subscription) : Subscription :=
  if success (attempt_payment env s)
  then match advanced_date s with
       | Ok next_billing_date =>
           set_sub_status ACTIVE (set_sub_next_billing_date next_billing_date s)
       | Raise _ => s
       end
  else set_sub_status PAST_DUE s.

Definition attempt_value (env : AttemptEnv) (s : Subscription) : bool :=
  if success (attempt_payment env s)
  then match advanced_date s with
       | Ok _ => true
       | Raise _ => false
       end
  else false.

Definition billing_record_of (env : AttemptEnv) (s : Subscription) : BillingHistory :=
  {| bh_subscription_id := sub_id s;
     bh_amount := plan_price (sub_plan s);
     bh_status := if success (attempt_payment env s) then SUCCESS else FAILED;
     bh_transaction_id := transaction_id (attempt_payment env s);
     bh_failure_reason := failure_reason (attempt_payment env s);
     bh_processed_at := attempt_now env |}.

(** Every subscription row is stored under its own id, the primary key. *)
Definition session_wf (db : Session) : Prop :=
  forall k s, subscriptions db !! k = Some s -> sub_id s = k.

(** The session after the batches [bs], one after the other. *)
Definition run_batches (env : CycleEnv) (bs : list (list Subscription)) (db : Session)
    : Session :=
  foldl (fun db batch => (gather env batch db).1) db bs.

(** ** Sample data

    The plan, the subscription and the reads used by the closed examples. *)

(** 2024-01-15T00:00:00 and the 2024-01-20T09:30:00 of a later run. *)
Definition jan15 : datetime := 1705276800000000.
Definition jan20 : datetime := 1705743000000000.

(** The plans and the subscriptions are rows read from the database:
    their [billing_cycle] is the string of the column. *)
Definition plan_monthly : SubscriptionPlan :=
  {| plan_id := 1; plan_name := "Pro"; plan_price := 2999;
     plan_billing_cycle := Loaded "monthly"; plan_trial_days := 14 |}.

Definition sample_subscription (id : Z) : Subscription :=
  {| sub_id := id; sub_user_id := 7; sub_plan_id := 1; sub_status := ACTIVE;
     sub_started_at := jan15 - timedelta_days 30;
     sub_next_billing_date := jan15;
     sub_cancelled_at := None; sub_trial_ends_at := None;
     sub_plan := plan_monthly |}.

Definition sample_db : Session :=
  {| subscriptions := {[ 1 := sample_subscription 1 ]};
     subscription_plans := {[ 1 := plan_monthly ]};
     billing_history := [] |}.

Definition draw_approve : PaymentDraw :=
  {| draw_uuid := "0b7e1c52"; draw_timeout := false; draw_approved := true;
     draw_choice := 0; draw_elapsed_ms := 412 |}.

Definition draw_decline : PaymentDraw :=
  {| draw_uuid := "5d0a9f31"; draw_timeout := false; draw_approved := false;
     draw_choice := 6; draw_elapsed_ms := 388 |}.

Definition draw_time_out : PaymentDraw :=
  {| draw_uuid := "c41d77e0"; draw_timeout := true; draw_approved := true;
     draw_choice := 0; draw_elapsed_ms := 5391 |}.

Definition attempt_with (d : PaymentDraw) : AttemptEnv :=
  {| attempt_draw := d; attempt_now := jan20 |}.

Definition cancel_ok : CancelEnv :=
  {| cancel_now := jan20; cancel_select := None; cancel_commit := None |}.

Definition cancel_commit_fails : CancelEnv :=
  {| cancel_now := jan20; cancel_select := None;
     cancel_commit := Some "connection is closed" |}.

Definition create_ok : CreateEnv :=
  {| create_now := jan20; create_id := 2;
     create_select := None; create_commit := None; create_refresh := None |}.

Definition create_request (override : option Z) : SubscriptionCreate :=
  {| sc_user_id := 7; sc_plan_id := 1; sc_status := ACTIVE;
     sc_trial_days_override := override |}.

(** The request [d] with another [trial_days_override]. *)
Definition with_trial_days_override (v : option Z) (d : SubscriptionCreate)
    : SubscriptionCreate :=
  {| sc_user_id := sc_user_id d; sc_plan_id := sc_plan_id d; sc_status := sc_status d;
     sc_trial_days_override := v |}.

(** A run in which every round trip succeeds and every payment reads [d]. *)
Definition cycle_with (d : PaymentDraw) : CycleEnv :=
  {| cycle_started_at := jan20; cycle_today := jan20;
     cycle_completed_at := jan20 + 42000000; cycle_failed_at := jan20 + 42000000;
     cycle_attempt := fun _ => attempt_with d;
     cycle_latency := fun _ => 400000;
     cycle_io := fun _ => None |}.

(** The same, except that the commit closing the second batch raises. *)
Definition cycle_second_commit_fails : CycleEnv :=
  {| cycle_started_at := jan20; cycle_today := jan20;
     cycle_completed_at := jan20 + 42000000; cycle_failed_at := jan20 + 42000000;
     cycle_attempt := fun _ => attempt_with draw_approve;
     cycle_latency := fun _ => 400000;
     cycle_io := fun p => match p with
                          | CommitBatch 10 => Some "connection is closed"
                          | _ => None
                          end |}.

(** Twenty-five due subscriptions, with ids 1 to 25. *)
Definition sample_db_25 : Session :=
  {| subscriptions :=
       list_to_map (map (fun i => (Z.of_nat i, sample_subscription (Z.of_nat i))) (seq 1 25));
     subscription_plans := {[ 1 := plan_monthly ]};
     billing_history := [] |}.

(** A yearly plan without trial, and a session that has it as plan 2. *)
Definition plan_yearly : SubscriptionPlan :=
  {| plan_id := 2; plan_name := "Pro yearly"; plan_price := 29900;
     plan_billing_cycle := Loaded "yearly"; plan_trial_days := 0 |}.

Definition sample_db_plans : Session :=
  {| subscriptions := {[ 1 := sample_subscription 1 ]};
     subscription_plans := {[ 1 := plan_monthly; 2 := plan_yearly ]};
     billing_history := [] |}.

Definition create_request_on (plan : Z) (override : option Z) : SubscriptionCreate :=
  {| sc_user_id := 7; sc_plan_id := plan; sc_status := ACTIVE;
     sc_trial_days_override := override |}.

Definition initial_with (d : PaymentDraw) : InitialEnv :=
  {| initial_select := None; initial_attempt := attempt_with d |}.

(** A run in which every round trip succeeds and every payment has its own
    transaction id and its own duration; the payments of the subscriptions
    whose id is a multiple of 4 are declined. *)
Definition cycle_mixed : CycleEnv :=
  {| cycle_started_at := jan20; cycle_today := jan20;
     cycle_completed_at := jan20 + 42000000; cycle_failed_at := jan20 + 42000000;
     cycle_attempt := fun id =>
       {| attempt_draw :=
            {| draw_uuid := "tx-" +:+ pretty id; draw_timeout := false;
               draw_approved := negb (id `mod` 4 =? 0);
               draw_choice := Z.to_nat id;
               draw_elapsed_ms := 150 + (id * 37) `mod` 200 |};
          attempt_now := jan20 + (150 + (id * 37) `mod` 200) * 1000 |};
     cycle_latency := fun id => (150 + (id * 37) `mod` 200) * 1000;
     cycle_io := fun _ => None |}.

(** The same plan and subscription built in memory, with the enum member. *)
Definition plan_monthly_in_memory : SubscriptionPlan :=
  {| plan_id := 1; plan_name := "Pro"; plan_price := 2999;
     plan_billing_cycle := Member MONTHLY; plan_trial_days := 14 |}.

Definition subscription_in_memory : Subscription :=
  {| sub_id := 1; sub_user_id := 7; sub_plan_id := 1; sub_status := ACTIVE;
     sub_started_at := jan15 - timedelta_days 30;
     sub_next_billing_date := jan15;
     sub_cancelled_at := None; sub_trial_ends_at := None;
     sub_plan := plan_monthly_in_memory |}.

(** Subscription 1 paused, subscription 2 due. *)
Definition sample_db_paused : Session :=
  {| subscriptions := {[ 1 := set_sub_status PAUSED (sample_subscription 1);
                         2 := sample_subscription 2 ]};
     subscription_plans := {[ 1 := plan_monthly ]};
     billing_history := [] |}.

(** A migration whose third step fails. *)
Definition migration_third_fails : MigrationEnv :=
  {| step_result := fun name =>
       Ok {| mr_success := negb (String.eqb name "subscriptions");
             mr_records_processed := 3; mr_records_migrated := 3;
             mr_errors := []; mr_processing_time := 1 |};
     integrity_result := Raise "not reached" |}.

(** A step whose extraction from the legacy database raises. *)
Definition extract_fails : StepEnv Z Z :=
  {| read_sql := Raise "connection refused";
     transform_data := fun df => Ok df;
     validate_data := fun _ => Ok [];
     batch_insert := fun df => Ok (Z.of_nat (length df));
     elapsed := 1 |}.

Definition migration_config : MigrationConfig :=
  {| cfg_batch_size := 1000; cfg_validate_data := true; cfg_dry_run := false |}.

(** * Properties *)

(** ** Running a computation *)

#[local] Arguments _process_subscription_billing : simpl never.

Ltac run_m :=
  unfold mbind, M_bind, bind, mret, M_ret, ret, raise, get, modify, round_trip,
    from_result; cbn.

(** ** Date arithmetic *)

Lemma timedelta_days_pos (n : Z) : 0 < n -> 0 < timedelta_days n.
Proof. unfold timedelta_days, microseconds_per_day. lia. Qed.

Lemma datetime_add_Ok (d delta r : Z) :
  datetime_add d delta = Ok r <-> r = d + delta /\ datetime_min <= d + delta <= datetime_max.
Proof.
  unfold datetime_add. case_decide; split.
  - intros [= <-]. auto.
  - intros [-> _]. reflexivity.
  - discriminate.
  - intros [_ ?]. contradiction.
Qed.

Lemma datetime_add_in_range (d delta : Z) :
  datetime_min <= d + delta <= datetime_max -> datetime_add d delta = Ok (d + delta).
Proof. intros H. apply datetime_add_Ok. auto. Qed.

Lemma datetime_add_overflow (d delta : Z) :
  ~ datetime_min <= d + delta <= datetime_max ->
  datetime_add d delta = Raise "date value out of range".
Proof. intros H. unfold datetime_add. case_decide; [contradiction | reflexivity]. Qed.

Lemma calculate_next_billing_date_value (d : datetime) (c : BillingCycle) :
  _calculate_next_billing_date d (BillingCycle_value c)
  = datetime_add d (timedelta_days (cycle_days c)).
Proof. destruct c; reflexivity. Qed.

Lemma calculate_next_billing_date_add (d : datetime) (unit : string) :
  exists days,
    0 < days
    /\ _calculate_next_billing_date d unit = datetime_add d (timedelta_days days).
Proof.
  unfold _calculate_next_billing_date.
  repeat case_decide; eexists; (split; [| reflexivity]); lia.
Qed.

(** C5, as the code has it: [_calculate_next_billing_date] is a function of
    the current date and the cycle unit alone.  The offset is 7 days for
    "weekly", 30 days for "monthly", 365 days for "yearly" and 30 days, the
    monthly offset, for every other unit.  When the date plus the offset is
    a [datetime], that is not later than 9999-12-31T23:59:59.999999, the
    function returns it; otherwise the addition raises [OverflowError] and
    the function returns nothing. *)
Theorem calculate_next_billing_date_offsets
    (current_date : datetime) (unit : string) (days : Z) :
  unit = "weekly" /\ days = 7
  \/ unit = "monthly" /\ days = 30
  \/ unit = "yearly" /\ days = 365
  \/ (unit <> "weekly" /\ unit <> "monthly" /\ unit <> "yearly") /\ days = 30 ->
  (datetime_min <= current_date + timedelta_days days <= datetime_max ->
   _calculate_next_billing_date current_date unit
   = Ok (current_date + timedelta_days days))
  /\ (~ datetime_min <= current_date + timedelta_days days <= datetime_max ->
      _calculate_next_billing_date current_date unit = Raise "date value out of range").
Proof.
  intros Hcase.
  assert (_calculate_next_billing_date current_date unit
          = datetime_add current_date (timedelta_days days)) as ->.
  { unfold _calculate_next_billing_date.
    destruct Hcase as [[-> ->] | [[-> ->] | [[-> ->] | [(Hw & Hm & Hy) ->]]]];
      try reflexivity.
    repeat case_decide; congruence. }
  split; [apply datetime_add_in_range | apply datetime_add_overflow].
Qed.

Lemma calculate_next_billing_date_offsets_witness :
  _calculate_next_billing_date jan15 "fortnightly" = Ok (jan15 + timedelta_days 30).
Proof.
  apply (calculate_next_billing_date_offsets jan15 "fortnightly" 30).
  - right. right. right. repeat split; discriminate.
  - vm_compute. split; discriminate.
Defined.

(** C5 as stated fails: 9999-12-31T23:59:59.999999 is a [datetime], and
    from it, as from 9999-12-25T00:00:00, the function raises for a weekly
    cycle instead of returning the date plus 7 days. *)
Lemma calculate_next_billing_date_overflows :
  _calculate_next_billing_date datetime_max "weekly" = Raise "date value out of range"
  /\ _calculate_next_billing_date (datetime_max - timedelta_days 7 + 1) "weekly"
     = Raise "date value out of range"
  /\ _calculate_next_billing_date (datetime_max - timedelta_days 7) "weekly"
     = Ok datetime_max.
Proof. vm_compute. repeat split. Qed.

(** ** The payment service *)

Lemma system_error_not_declined (e : string) :
  "System error: " +:+ e ∉ failure_reasons.
Proof.
  unfold failure_reasons. intros H.
  repeat (apply elem_of_cons in H as [H | H]; [simpl in H; discriminate H |]).
  by apply elem_of_nil in H.
Qed.

Lemma random_choice_elem_of (pick : nat) : random_choice pick failure_reasons ∈ failure_reasons.
Proof.
  unfold random_choice. apply list_elem_of_In, nth_In.
  apply Nat.mod_upper_bound. discriminate.
Qed.

Lemma process_payment_success (d : PaymentDraw) uid amount descr :
  success (process_payment d uid amount descr)
  = negb (draw_timeout d) && draw_approved d.
Proof.
  unfold process_payment, _simulate_payment_gateway_call.
  destruct (draw_timeout d), (draw_approved d); reflexivity.
Qed.

(** ** One billing attempt *)

(** What an attempt returns and the session it leaves. *)
Lemma attempt_run env db s :
  _process_subscription_billing env db s
  = (Ok (attempt_value env s),
     store_subscription (billed env s)
       (add_billing_record (billing_record_of env s) db)).
Proof.
  unfold _process_subscription_billing, try_except, subscription_billing_body,
    on_session, on_subscription, billed, attempt_value, advanced_date, billing_record_of.
  run_m.
  destruct (success (attempt_payment env s)); [| reflexivity].
  destruct (billing_cycle_value (plan_billing_cycle (sub_plan s))) as [v | e]; cbn;
    [| reflexivity].
  destruct (_calculate_next_billing_date (sub_next_billing_date s) v) as [d | e];
    reflexivity.
Qed.

Lemma billed_id env s : sub_id (billed env s) = sub_id s.
Proof.
  unfold billed. destruct (success _); [| reflexivity].
  destruct (advanced_date s); reflexivity.
Qed.

Lemma attempt_history env db s :
  billing_history (_process_subscription_billing env db s).2
  = billing_history db ++
      [ {| bh_subscription_id := sub_id s;
           bh_amount := plan_price (sub_plan s);
           bh_status := if success (attempt_payment env s) then SUCCESS else FAILED;
           bh_transaction_id := transaction_id (attempt_payment env s);
           bh_failure_reason := failure_reason (attempt_payment env s);
           bh_processed_at := attempt_now env |} ].
Proof. rewrite attempt_run. reflexivity. Qed.

Lemma attempt_subscription env db s :
  subscriptions (_process_subscription_billing env db s).2 !! sub_id s
  = Some (billed env s).
Proof.
  rewrite attempt_run. cbn. rewrite <- (billed_id env s) at 1. apply lookup_insert_eq.
Qed.

Lemma attempt_returns env db s :
  (_process_subscription_billing env db s).1 = Ok (attempt_value env s).
Proof. rewrite attempt_run. reflexivity. Qed.

Lemma elem_of_select_due today db s :
  s ∈ select_due today db
  <-> (exists k, subscriptions db !! k = Some s) /\ due_for_billing today s = true.
Proof.
  unfold select_due. rewrite list_elem_of_In, filter_In, <- list_elem_of_In.
  rewrite list_elem_of_fmap.
  split.
  - intros ((kv & -> & Hkv) & Hdue). destruct kv as [k v].
    apply elem_of_map_to_list in Hkv. eauto.
  - intros ((k & Hk) & Hdue). split; [| exact Hdue].
    exists (k, s). split; [reflexivity |]. apply elem_of_map_to_list. exact Hk.
Qed.

(** C2: every billing attempt adds exactly one row to the billing history,
    for the subscription billed.  When the gateway call raises, the row is
    [FAILED] and its reason is the system error, which is none of the
    reasons of a declined payment; a declined payment gives a [FAILED] row
    with one of those reasons; an approved one gives a [SUCCESS] row. *)
Theorem attempt_adds_exactly_one_record env db s :
  exists r : BillingHistory,
    billing_history (_process_subscription_billing env db s).2
      = billing_history db ++ [r]
    /\ bh_subscription_id r = sub_id s
    /\ (draw_timeout (attempt_draw env) = true ->
        bh_status r = FAILED
        /\ bh_failure_reason r = Some "System error: Gateway timeout"
        /\ "System error: Gateway timeout" ∉ failure_reasons)
    /\ (draw_timeout (attempt_draw env) = false ->
        draw_approved (attempt_draw env) = false ->
        bh_status r = FAILED
        /\ exists reason, bh_failure_reason r = Some reason /\ reason ∈ failure_reasons)
    /\ (draw_timeout (attempt_draw env) = false ->
        draw_approved (attempt_draw env) = true ->
        bh_status r = SUCCESS /\ bh_failure_reason r = None).
Proof.
  eexists. split; [apply attempt_history |]. simpl.
  split; [reflexivity |].
  unfold attempt_payment, process_payment, _simulate_payment_gateway_call.
  split; [| split].
  - intros Ht. rewrite Ht. simpl. do 2 (split; [reflexivity |]).
    apply (system_error_not_declined "Gateway timeout").
  - intros Ht Ha. rewrite Ht, Ha. simpl. split; [reflexivity |].
    eexists. split; [reflexivity |]. apply random_choice_elem_of.
  - intros Ht Ha. rewrite Ht, Ha. simpl. split; reflexivity.
Qed.

Lemma attempt_adds_exactly_one_record_witness :
  exists r : BillingHistory,
    billing_history
      (_process_subscription_billing (attempt_with draw_time_out) sample_db
         (sample_subscription 1)).2 = [r]
    /\ bh_status r = FAILED
    /\ bh_failure_reason r = Some "System error: Gateway timeout".
Proof.
  destruct (attempt_adds_exactly_one_record (attempt_with draw_time_out) sample_db
              (sample_subscription 1)) as (r & Hr & _ & Ht & _).
  exists r. split; [exact Hr |].
  destruct (Ht eq_refl) as (H1 & H2 & _). split; assumption.
Defined.

(** C3, as the code has it: a failed payment moves the subscription to
    [PAST_DUE] and changes no other field, so [next_billing_date] keeps its
    value; the subscription, no longer [ACTIVE], is not selected by the
    query of the due subscriptions, whatever the day of the run. *)
Theorem failed_attempt_past_due env db s :
  success (attempt_payment env s) = false ->
  (_process_subscription_billing env db s).1 = Ok false
  /\ exists s' : Subscription,
       subscriptions (_process_subscription_billing env db s).2 !! sub_id s = Some s'
       /\ s' = set_sub_status PAST_DUE s
       /\ sub_status s' = PAST_DUE
       /\ sub_next_billing_date s' = sub_next_billing_date s
       /\ forall today, due_for_billing today s' = false.
Proof.
  intros Hfail. split.
  - rewrite attempt_returns. unfold attempt_value. rewrite Hfail. reflexivity.
  - eexists. split.
    + rewrite attempt_subscription. unfold billed. rewrite Hfail. reflexivity.
    + repeat split.
Qed.

Lemma failed_attempt_past_due_witness :
  exists s' : Subscription,
    subscriptions
      (_process_subscription_billing (attempt_with draw_decline) sample_db
         (sample_subscription 1)).2 !! 1 = Some s'
    /\ sub_status s' = PAST_DUE
    /\ sub_next_billing_date s' = jan15.
Proof.
  destruct (failed_attempt_past_due (attempt_with draw_decline) sample_db
              (sample_subscription 1) eq_refl) as (_ & s' & H1 & _ & H2 & H3 & _).
  exists s'. repeat split; assumption.
Defined.

(** C3 as stated fails: the sample subscription is due on 2024-01-15, its
    payment is declined, its [next_billing_date] is unchanged, and it is
    not due any more, neither that day nor at the next run. *)
Lemma failed_attempt_not_due_again :
  let db' := (_process_subscription_billing (attempt_with draw_decline) sample_db
                (sample_subscription 1)).2 in
  due_for_billing jan15 (sample_subscription 1) = true
  /\ select_due jan15 sample_db = [sample_subscription 1]
  /\ success (attempt_payment (attempt_with draw_decline) (sample_subscription 1)) = false
  /\ subscriptions db' !! 1 = Some (set_sub_status PAST_DUE (sample_subscription 1))
  /\ sub_next_billing_date (set_sub_status PAST_DUE (sample_subscription 1)) = jan15
  /\ due_for_billing jan15 (set_sub_status PAST_DUE (sample_subscription 1)) = false
  /\ select_due (date_of jan20) db' = [].
Proof. vm_compute. repeat split. Qed.

(** What a successful payment leaves, by what the plan holds as billing
    cycle. *)
Lemma successful_attempt_cases env db s :
  success (attempt_payment env s) = true ->
  match plan_billing_cycle (sub_plan s) with
  | Loaded _ =>
      (_process_subscription_billing env db s).1 = Ok false
      /\ subscriptions (_process_subscription_billing env db s).2 !! sub_id s = Some s
  | Member c =>
      let next_billing_date := sub_next_billing_date s + timedelta_days (cycle_days c) in
      if decide (datetime_min <= next_billing_date <= datetime_max) then
        (_process_subscription_billing env db s).1 = Ok true
        /\ subscriptions (_process_subscription_billing env db s).2 !! sub_id s
           = Some (set_sub_status ACTIVE (set_sub_next_billing_date next_billing_date s))
      else
        (_process_subscription_billing env db s).1 = Ok false
        /\ subscriptions (_process_subscription_billing env db s).2 !! sub_id s = Some s
  end.
Proof.
  intros Hok. rewrite attempt_returns, attempt_subscription.
  unfold attempt_value, billed, advanced_date. rewrite Hok.
  destruct (plan_billing_cycle (sub_plan s)) as [c | v]; cbn; [| auto].
  rewrite calculate_next_billing_date_value. unfold datetime_add.
  case_decide; auto.
Qed.

(** C4, on the code: for a subscription whose plan was read from the
    database, as the billing cycle and the initial billing task load it,
    [plan.billing_cycle] is a string; a successful payment adds its
    [SUCCESS] row to the history, then the attempt raises on
    [billing_cycle.value], the handler returns [False], and the
    subscription is as before: its status and its [next_billing_date] are
    unchanged, so a subscription that was due is due again at the next
    run. *)
Theorem successful_attempt_on_loaded_plan env db s (cycle : string) :
  plan_billing_cycle (sub_plan s) = Loaded cycle ->
  success (attempt_payment env s) = true ->
  let out := _process_subscription_billing env db s in
  out.1 = Ok false
  /\ (exists r : BillingHistory,
        billing_history out.2 = billing_history db ++ [r]
        /\ bh_subscription_id r = sub_id s
        /\ bh_status r = SUCCESS)
  /\ subscriptions out.2 !! sub_id s = Some s
  /\ forall today, due_for_billing today s = true -> s ∈ select_due today out.2.
Proof.
  intros Hloaded Hok. cbv zeta.
  pose proof (successful_attempt_cases env db s Hok) as Hcases.
  rewrite Hloaded in Hcases. destruct Hcases as (Hret & Hrow).
  split; [exact Hret |]. split; [| split; [exact Hrow |]].
  - eexists. split; [apply attempt_history |]. cbn. rewrite Hok. auto.
  - intros today Hdue. apply elem_of_select_due. eauto.
Qed.

Lemma successful_attempt_on_loaded_plan_witness :
  let out := _process_subscription_billing (attempt_with draw_approve) sample_db
               (sample_subscription 1) in
  out.1 = Ok false
  /\ map bh_status (billing_history out.2) = [SUCCESS]
  /\ subscriptions out.2 !! 1 = Some (sample_subscription 1)
  /\ sub_status (sample_subscription 1) = ACTIVE
  /\ sub_next_billing_date (sample_subscription 1) = jan15
  /\ sample_subscription 1 ∈ select_due (date_of jan20) out.2.
Proof.
  cbv zeta.
  destruct (successful_attempt_on_loaded_plan (attempt_with draw_approve) sample_db
              (sample_subscription 1) "monthly" eq_refl eq_refl)
    as (H1 & (r & Hr & _ & Hs) & H3 & H4).
  split; [exact H1 |]. split; [rewrite Hr; cbn; rewrite Hs; reflexivity |].
  split; [exact H3 |]. split; [reflexivity |]. split; [reflexivity |].
  apply H4. reflexivity.
Defined.

(** ** cancel_subscription *)

Lemma cancel_subscription_cases env db subscription_id :
  cancel_subscription env db subscription_id
  = match cancel_select env, subscriptions db !! subscription_id, cancel_commit env with
    | None, Some s, None =>
        (Ok true,
         {| subscriptions :=
              <[subscription_id :=
                  set_sub_cancelled_at (Some (cancel_now env)) (set_sub_status CANCELLED s)]>
                (subscriptions db);
            subscription_plans := subscription_plans db;
            billing_history := billing_history db |})
    | _, _, _ => (Ok false, db)
    end.
Proof.
  unfold cancel_subscription, cancel_subscription_body, try_except.
  destruct (cancel_select env) as [e|]; [reflexivity |]. run_m.
  destruct (subscriptions db !! subscription_id) as [s|]; [| reflexivity]. run_m.
  destruct (cancel_commit env) as [e|]; reflexivity.
Qed.

(** C7, as the code has it: [cancel_subscription] always returns; it
    returns [False] if and only if no subscription has that id or a round
    trip to the database (the lookup or the commit) raises, and the session
    is then as before.  Otherwise it returns [True] with the subscription
    [CANCELLED] and [cancelled_at] the current time.  A second call on the
    cancelled subscription, the database answering, returns [True] again
    and the status is still [CANCELLED]. *)
Theorem cancel_subscription_spec env db subscription_id :
  let out := cancel_subscription env db subscription_id in
  (exists b : bool, out.1 = Ok b)
  /\ (out.1 = Ok false <->
       subscriptions db !! subscription_id = None
       \/ cancel_select env <> None \/ cancel_commit env <> None)
  /\ (out.1 = Ok false -> out.2 = db)
  /\ (out.1 = Ok true ->
      exists s s',
        subscriptions db !! subscription_id = Some s
        /\ subscriptions out.2 !! subscription_id = Some s'
        /\ sub_status s' = CANCELLED
        /\ sub_cancelled_at s' = Some (cancel_now env)
        /\ s' = set_sub_cancelled_at (Some (cancel_now env)) (set_sub_status CANCELLED s)
        /\ forall env2,
             cancel_select env2 = None -> cancel_commit env2 = None ->
             let again := cancel_subscription env2 out.2 subscription_id in
             again.1 = Ok true
             /\ exists s'', subscriptions again.2 !! subscription_id = Some s''
                            /\ sub_status s'' = CANCELLED).
Proof.
  cbv zeta. rewrite cancel_subscription_cases.
  destruct (cancel_select env) as [e1|] eqn:Hsel.
  { split; [eexists; reflexivity |].
    split; [split; [intros _; right; left; discriminate | reflexivity] |].
    split; [reflexivity | discriminate]. }
  destruct (subscriptions db !! subscription_id) as [s|] eqn:Hs.
  2: { split; [eexists; reflexivity |].
       split; [split; [intros _; left; reflexivity | reflexivity] |].
       split; [reflexivity | discriminate]. }
  destruct (cancel_commit env) as [e2|] eqn:Hcom.
  { split; [eexists; reflexivity |].
    split; [split; [intros _; right; right; discriminate | reflexivity] |].
    split; [reflexivity | discriminate]. }
  cbn. split; [eexists; reflexivity |]. split; [| split].
  - split; [discriminate |]. intros [H | [H | H]]; congruence.
  - discriminate.
  - intros _. eexists _, _. split; [reflexivity |].
    split; [apply lookup_insert_eq |].
    do 3 (split; [reflexivity |]).
    intros env2 Hsel2 Hcom2. cbv zeta.
    rewrite cancel_subscription_cases, Hsel2, Hcom2. cbn.
    rewrite lookup_insert_eq. cbn. split; [reflexivity |].
    eexists. split; [apply lookup_insert_eq | reflexivity].
Qed.

Lemma cancel_subscription_spec_witness :
  (cancel_subscription cancel_ok sample_db 1).1 = Ok true
  /\ exists s',
       subscriptions (cancel_subscription cancel_ok sample_db 1).2 !! 1 = Some s'
       /\ sub_status s' = CANCELLED /\ sub_cancelled_at s' = Some jan20.
Proof.
  split; [reflexivity |].
  destruct (cancel_subscription_spec cancel_ok sample_db 1) as (_ & _ & _ & H).
  destruct (H eq_refl) as (s & s' & _ & H1 & H2 & H3 & _).
  exists s'. repeat split; assumption.
Defined.

(** C7 as stated fails: subscription 1 exists, the commit raises, and
    [cancel_subscription] returns [False]. *)
Lemma cancel_existing_returns_false :
  subscriptions sample_db !! 1 = Some (sample_subscription 1)
  /\ (cancel_subscription cancel_commit_fails sample_db 1).1 = Ok false.
Proof. vm_compute. split; reflexivity. Qed.

(** ** create_subscription *)

(** What [create_subscription] returns or raises and the session it
    leaves, by the round trips and the object built. *)
Lemma create_subscription_cases env db subscription_data :
  create_subscription env db subscription_data
  = match create_select env with
    | Some e => (Raise e, db)
    | None =>
        match subscription_plans db !! sc_plan_id subscription_data with
        | None => (Raise "No row was found when one was required", db)
        | Some plan =>
            match new_subscription env subscription_data plan with
            | Raise e => (Raise e, db)
            | Ok subscription =>
                match create_commit env with
                | Some e => (Raise e, db)
                | None =>
                    match create_refresh env with
                    | Some e => (Raise e, store_subscription subscription db)
                    | None => (Ok subscription, store_subscription subscription db)
                    end
                end
            end
        end
    end.
Proof.
  unfold create_subscription, create_subscription_body, try_except, tx_modify, tx_commit,
    tx_rollback.
  destruct (create_select env) as [e |]; [reflexivity |]. run_m.
  destruct (subscription_plans db !! sc_plan_id subscription_data) as [plan |];
    [| reflexivity].
  run_m.
  destruct (new_subscription env subscription_data plan) as [subscription | e];
    [| reflexivity].
  destruct (create_commit env) as [e |]; [reflexivity |]. cbn.
  destruct (create_refresh env) as [e |]; reflexivity.
Qed.

Lemma create_subscription_ok env db subscription_data sub db' :
  create_subscription env db subscription_data = (Ok sub, db') ->
  exists plan,
    subscription_plans db !! sc_plan_id subscription_data = Some plan
    /\ new_subscription env subscription_data plan = Ok sub
    /\ db' = store_subscription sub db.
Proof.
  rewrite create_subscription_cases.
  destruct (create_select env); [discriminate |].
  destruct (subscription_plans db !! sc_plan_id subscription_data) as [plan |];
    [| discriminate].
  destruct (new_subscription env subscription_data plan) as [subscription |] eqn:Hnew;
    [| discriminate].
  destruct (create_commit env); [discriminate |].
  destruct (create_refresh env); [discriminate |].
  intros [= <- <-]. exists plan. repeat split. exact Hnew.
Qed.

(** The object built for a request with a trial. *)
Lemma new_subscription_trial env subscription_data plan :
  let trial_days :=
    or_int (sc_trial_days_override subscription_data) (plan_trial_days plan) in
  trial_days > 0 ->
  new_subscription env subscription_data plan
  = if decide (Z.abs trial_days <= 999999999) then
      if decide (datetime_min <= create_now env + timedelta_days trial_days <= datetime_max)
      then Ok {| sub_id := create_id env;
                 sub_user_id := sc_user_id subscription_data;
                 sub_plan_id := sc_plan_id subscription_data;
                 sub_status := sc_status subscription_data;
                 sub_started_at := create_now env;
                 sub_next_billing_date := create_now env + timedelta_days trial_days;
                 sub_cancelled_at := None;
                 sub_trial_ends_at := Some (create_now env + timedelta_days trial_days);
                 sub_plan := plan |}
      else Raise "date value out of range"
    else Raise ("days=" +:+ pretty trial_days +:+ "; must have magnitude <= 999999999").
Proof.
  cbv zeta. intros Hpos. unfold new_subscription.
  destruct (decide (or_int _ _ > 0)) as [_ | Hn]; [| contradiction].
  unfold timedelta. destruct (decide (Z.abs _ <= 999999999)); [| reflexivity].
  cbn. unfold datetime_add.
  destruct (decide (datetime_min <= _ <= datetime_max)); reflexivity.
Qed.

(** The object built for a request without trial. *)
Lemma new_subscription_no_trial env subscription_data plan :
  or_int (sc_trial_days_override subscription_data) (plan_trial_days plan) <= 0 ->
  new_subscription env subscription_data plan
  = match plan_billing_cycle plan with
    | Loaded _ => Raise "'str' object has no attribute 'value'"
    | Member c =>
        if decide (datetime_min <= create_now env + timedelta_days (cycle_days c)
                   <= datetime_max)
        then Ok {| sub_id := create_id env;
                   sub_user_id := sc_user_id subscription_data;
                   sub_plan_id := sc_plan_id subscription_data;
                   sub_status := sc_status subscription_data;
                   sub_started_at := create_now env;
                   sub_next_billing_date :=
                     create_now env + timedelta_days (cycle_days c);
                   sub_cancelled_at := None;
                   sub_trial_ends_at := None;
                   sub_plan := plan |}
        else Raise "date value out of range"
    end.
Proof.
  intros Hneg. unfold new_subscription.
  destruct (decide (or_int _ _ > 0)) as [Hpos | _]; [lia |].
  destruct (plan_billing_cycle plan) as [c | v]; [| reflexivity].
  destruct c; cbn; unfold datetime_add;
    repeat (case_decide; try discriminate; cbn); try reflexivity; contradiction.
Qed.

(** The fields of the object that do not depend on the dates. *)
Lemma new_subscription_fields env subscription_data plan sub :
  new_subscription env subscription_data plan = Ok sub ->
  sub_id sub = create_id env
  /\ sub_user_id sub = sc_user_id subscription_data
  /\ sub_plan_id sub = sc_plan_id subscription_data
  /\ sub_status sub = sc_status subscription_data
  /\ sub_started_at sub = create_now env
  /\ sub_cancelled_at sub = None
  /\ sub_plan sub = plan.
Proof.
  unfold new_subscription.
  destruct (if decide _ then _ else _) as [dates | e]; [| discriminate].
  intros [= <-]. repeat split.
Qed.

(** The dates of a subscription that has been built. *)
Lemma new_subscription_dates env subscription_data plan sub :
  let trial_days :=
    or_int (sc_trial_days_override subscription_data) (plan_trial_days plan) in
  new_subscription env subscription_data plan = Ok sub ->
  (trial_days > 0 ->
     sub_trial_ends_at sub = Some (create_now env + timedelta_days trial_days)
     /\ sub_next_billing_date sub = create_now env + timedelta_days trial_days)
  /\ (trial_days <= 0 ->
      sub_trial_ends_at sub = None
      /\ exists c, plan_billing_cycle plan = Member c
                   /\ sub_next_billing_date sub
                      = create_now env + timedelta_days (cycle_days c)).
Proof.
  cbv zeta. intros Hsub.
  destruct (decide (or_int (sc_trial_days_override subscription_data)
                      (plan_trial_days plan) > 0)) as [Hpos | Hneg].
  - split; [intros _ | lia].
    rewrite new_subscription_trial in Hsub by exact Hpos.
    repeat case_decide; try discriminate. injection Hsub as <-. auto.
  - split; [lia | intros _].
    rewrite new_subscription_no_trial in Hsub by lia.
    destruct (plan_billing_cycle plan) as [c | v]; [| discriminate].
    case_decide; [| discriminate]. injection Hsub as <-. eauto.
Qed.

Lemma or_int_zero (y : Z) : or_int (Some 0) y = y.
Proof. unfold or_int. destruct (decide (0 = 0)); congruence. Qed.

(** C10: a request whose [trial_days_override] is 0, which the schema
    accepts, is handled exactly as a request without override: the trial
    length is the plan's.  A subscription created for a plan with a positive
    trial has [trial_ends_at] the current time plus the plan's trial days
    and [next_billing_date] the same date; it is created whenever that
    date is a [datetime] and the database answers. *)
Theorem create_subscription_override_zero env db subscription_data :
  sc_trial_days_override subscription_data = Some 0 ->
  SubscriptionCreate_valid subscription_data
  /\ create_subscription env db subscription_data
     = create_subscription env db (with_trial_days_override None subscription_data)
  /\ (forall subscription db',
        create_subscription env db subscription_data = (Ok subscription, db') ->
        plan_trial_days (sub_plan subscription) > 0 ->
        sub_trial_ends_at subscription
        = Some (create_now env + timedelta_days (plan_trial_days (sub_plan subscription)))
        /\ sub_next_billing_date subscription
           = create_now env + timedelta_days (plan_trial_days (sub_plan subscription)))
  /\ forall plan,
       subscription_plans db !! sc_plan_id subscription_data = Some plan ->
       plan_trial_days plan > 0 ->
       datetime_min <= create_now env ->
       create_now env + timedelta_days (plan_trial_days plan) <= datetime_max ->
       create_select env = None -> create_commit env = None -> create_refresh env = None ->
       exists subscription,
         (create_subscription env db subscription_data).1 = Ok subscription
         /\ sub_trial_ends_at subscription
            = Some (create_now env + timedelta_days (plan_trial_days plan))
         /\ sub_next_billing_date subscription
            = create_now env + timedelta_days (plan_trial_days plan).
Proof.
  intros Hzero. split; [| split; [| split]].
  - unfold SubscriptionCreate_valid. rewrite Hzero. lia.
  - unfold create_subscription, create_subscription_body, new_subscription.
    rewrite Hzero. reflexivity.
  - intros subscription db' Hok Hpos.
    apply create_subscription_ok in Hok as (plan & _ & Hsub & _).
    pose proof (new_subscription_fields _ _ _ _ Hsub) as (_ & _ & _ & _ & _ & _ & Hplan).
    rewrite Hplan in *.
    pose proof (new_subscription_dates _ _ _ _ Hsub) as (Hdates & _).
    rewrite Hzero, or_int_zero in Hdates. apply Hdates. exact Hpos.
  - intros plan Hplan Hpos Hmin Hmax Hsel Hcom Href.
    rewrite create_subscription_cases, Hsel, Hplan, Hcom, Href.
    pose proof (new_subscription_trial env subscription_data plan) as Hnew.
    cbv zeta in Hnew. rewrite Hzero, or_int_zero in Hnew. rewrite Hnew by exact Hpos.
    pose proof (timedelta_days_pos _ (proj1 (Z.gt_lt_iff _ _) Hpos)) as Hdelta.
    assert (Z.abs (plan_trial_days plan) <= 999999999) as Hdays.
    { unfold timedelta_days, microseconds_per_day, datetime_min, datetime_max in *. lia. }
    destruct (decide (Z.abs (plan_trial_days plan) <= 999999999)); [| contradiction].
    destruct (decide (datetime_min
                      <= create_now env + timedelta_days (plan_trial_days plan)
                      <= datetime_max)) as [_ | Hn]; [| lia].
    eexists. repeat split.
Qed.

Lemma create_subscription_override_zero_witness :
  exists subscription,
    (create_subscription create_ok sample_db (create_request (Some 0))).1 = Ok subscription
    /\ sub_trial_ends_at subscription = Some (jan20 + timedelta_days 14)
    /\ sub_next_billing_date subscription = jan20 + timedelta_days 14.
Proof.
  destruct (create_subscription_override_zero create_ok sample_db (create_request (Some 0))
              eq_refl) as (_ & _ & _ & H).
  apply (H plan_monthly); try reflexivity; vm_compute; discriminate.
Defined.

(** ** Batches *)

Lemma batch_size_pos : (0 < batch_size)%nat.
Proof. unfold batch_size. lia. Qed.

Lemma slice_length {A} (l : list A) (i : nat) :
  length (slice l i (i + batch_size)) = Nat.min batch_size (length l - i).
Proof.
  unfold slice. rewrite length_take, length_drop.
  replace (i + batch_size - i)%nat with batch_size by lia. reflexivity.
Qed.

Lemma range_from_bound (fuel start stop step : nat) :
  Forall (fun i => (start <= i < stop)%nat) (range_from fuel start stop step).
Proof.
  revert start. induction fuel as [| fuel IH]; intros start; simpl; [constructor |].
  destruct (start <? stop)%nat eqn:Hlt; [| constructor].
  apply Nat.ltb_lt in Hlt. constructor; [lia |].
  eapply Forall_impl; [apply IH |]. simpl. intros i Hi. lia.
Qed.

Lemma concat_slices {A} (l : list A) (fuel start : nat) :
  (length l <= start + fuel)%nat ->
  concat (map (fun i => slice l i (i + batch_size))
            (range_from fuel start (length l) batch_size))
  = drop start l.
Proof.
  pose proof batch_size_pos as Hpos.
  revert start. induction fuel as [| fuel IH]; intros start Hfuel; simpl.
  - symmetry. apply drop_ge. lia.
  - destruct (start <? length l)%nat eqn:Hlt.
    + simpl. rewrite IH by lia. unfold slice.
      replace (start + batch_size - start)%nat with batch_size by lia.
      rewrite <- (drop_drop l batch_size start). apply take_drop.
    + apply Nat.ltb_ge in Hlt. symmetry. apply drop_ge. lia.
Qed.

Lemma slices_full {A} (l : list A) (fuel start k : nat) (b : list A) :
  let bs := map (fun i => slice l i (i + batch_size))
              (range_from fuel start (length l) batch_size) in
  bs !! k = Some b -> (S k < length bs)%nat -> length b = batch_size.
Proof.
  cbv zeta. revert start k. induction fuel as [| fuel IH]; intros start k; simpl.
  - intros H. discriminate H.
  - destruct (start <? length l)%nat eqn:Hlt; simpl; [| intros H; discriminate H].
    destruct k as [| k]; simpl.
    + intros [= <-] Hlen. rewrite slice_length.
      destruct fuel as [| fuel]; simpl in Hlen; [lia |].
      destruct (start + batch_size <? length l)%nat eqn:Hnext; simpl in Hlen; [| lia].
      apply Nat.ltb_lt in Hnext. lia.
    + intros Hk Hlen. apply (IH (start + batch_size)%nat k Hk). lia.
Qed.

Lemma batches_concat {A} (l : list A) : concat (batches l) = l.
Proof. unfold batches, range. rewrite concat_slices by lia. apply drop_0. Qed.

Lemma batches_lengths {A} (l : list A) :
  map length (batches l)
  = map (fun i => Nat.min batch_size (length l - i)) (range 0 (length l) batch_size).
Proof.
  unfold batches. rewrite map_map. apply map_ext. intros i. apply slice_length.
Qed.

Lemma batches_nonempty {A} (l : list A) :
  Forall (fun b : list A => (1 <= length b <= batch_size)%nat) (batches l).
Proof.
  unfold batches, range. apply Forall_map.
  eapply Forall_impl; [apply range_from_bound |]. simpl.
  intros i Hi. rewrite slice_length. pose proof batch_size_pos. lia.
Qed.

(** ** The billing cycle *)

Lemma record_result_running id t n k (b : bool) :
  record_result (Ok b) (running_job id t n k) = running_job id t n (k + 1).
Proof. reflexivity. Qed.

Lemma for_each_record (rs : list (result bool)) (st : CycleState) :
  for_each rs (fun r => modify_job (record_result r)) st
  = (Ok tt, {| cs_db := cs_db st;
               cs_job := fold_left (fun j r => record_result r j) rs (cs_job st);
               cs_rows := cs_rows st |}).
Proof.
  revert st. induction rs as [| r rs IH]; intros st; simpl.
  - destruct st; reflexivity.
  - run_m. rewrite IH. reflexivity.
Qed.

Lemma gather_results env batch db :
  (gather env batch db).2
  = map Ok (map (fun s => attempt_value (cycle_attempt env (sub_id s)) s) batch).
Proof.
  unfold gather. cbn [snd]. rewrite map_map. apply map_ext.
  intros s. apply attempt_returns.
Qed.

Lemma fold_record_running id t n k (bs : list bool) :
  fold_left (fun j r => record_result r j) (map Ok bs) (running_job id t n k)
  = running_job id t n (k + Z.of_nat (length bs)).
Proof.
  revert k. induction bs as [| b bs IH]; intros k; cbn [fold_left map length].
  - f_equal. lia.
  - rewrite record_result_running, IH. f_equal. lia.
Qed.

Lemma bind_run {S A B} (m : M S A) (f : A -> M S B) (st : S) :
  (m ≫= f) st
  = match m st with
    | (Ok a, st') => f a st'
    | (Raise e, st') => (Raise e, st')
    end.
Proof. reflexivity. Qed.

Lemma commit_run env p st :
  commit env p st
  = match cycle_io env p with
    | None => (Ok tt, {| cs_db := cs_db st; cs_job := cs_job st;
                         cs_rows := cs_rows st ++ [cs_job st] |})
    | Some e => (Raise e, st)
    end.
Proof. unfold commit. destruct (cycle_io env p); reflexivity. Qed.

Lemma process_batch_run env subs i st id t n k :
  cs_job st = running_job id t n k ->
  let j := running_job id t n (k + Z.of_nat (length (slice subs i (i + batch_size)))) in
  let db' := (gather env (slice subs i (i + batch_size)) (cs_db st)).1 in
  process_batch env subs i st
  = match cycle_io env (CommitBatch i) with
    | None => (Ok tt, {| cs_db := db'; cs_job := j; cs_rows := cs_rows st ++ [j] |})
    | Some e => (Raise e, {| cs_db := db'; cs_job := j; cs_rows := cs_rows st |})
    end.
Proof.
  intros Hjob. cbv zeta. unfold process_batch. rewrite bind_run.
  unfold gather_batch.
  pose proof (gather_results env (slice subs i (i + batch_size)) (cs_db st)) as Hrs.
  destruct (gather env (slice subs i (i + batch_size)) (cs_db st)) as [db' rs].
  simpl in Hrs. subst rs. rewrite bind_run, for_each_record. cbn [cs_db cs_job cs_rows].
  rewrite Hjob, fold_record_running, length_map, commit_run. cbn [cs_db cs_job cs_rows fst].
  reflexivity.
Qed.

Lemma batch_rows_step id t n fuel start :
  (start < n)%nat ->
  batch_rows id t n (S fuel) start
  = running_job id t (Z.of_nat n) (Z.of_nat (Nat.min (start + batch_size) n))
      :: batch_rows id t n fuel (start + batch_size).
Proof.
  intros Hlt. unfold batch_rows. simpl range_from.
  apply Nat.ltb_lt in Hlt. rewrite Hlt. reflexivity.
Qed.

Lemma batch_rows_stop id t n fuel start :
  (n <= start)%nat -> batch_rows id t n fuel start = [].
Proof.
  intros Hge. unfold batch_rows. destruct fuel; simpl; [reflexivity |].
  apply Nat.ltb_ge in Hge. rewrite Hge. reflexivity.
Qed.

(** The loop over the batches: when it returns, each batch has committed
    its row and, the steps sufficing, every result is recorded; when it
    raises, a round trip has raised and the batches before have committed
    their rows. *)
Lemma batch_loop_run env subs id t fuel :
  forall start st,
    cs_job st = running_job id t (Z.of_nat (length subs))
                  (Z.of_nat (Nat.min start (length subs))) ->
    match for_each (range_from fuel start (length subs) batch_size)
            (process_batch env subs) st with
    | (Ok _, st') =>
        cs_rows st' = cs_rows st ++ batch_rows id t (length subs) fuel start
        /\ exists m : nat,
             cs_job st' = running_job id t (Z.of_nat (length subs)) (Z.of_nat m)
             /\ ((length subs <= start + fuel)%nat -> m = length subs)
    | (Raise e, st') =>
        (exists p, cycle_io env p = Some e)
        /\ exists rows,
             rows `prefix_of` batch_rows id t (length subs) fuel start
             /\ cs_rows st' = cs_rows st ++ rows
    end.
Proof.
  pose proof batch_size_pos as Hpos.
  induction fuel as [| fuel IH]; intros start st Hjob.
  - simpl. split; [rewrite app_nil_r; reflexivity |].
    exists (Nat.min start (length subs)). split; [exact Hjob | lia].
  - destruct (Nat.lt_ge_cases start (length subs)) as [Hlt | Hge].
    + rewrite batch_rows_step by exact Hlt.
      simpl range_from. rewrite (proj2 (Nat.ltb_lt _ _) Hlt).
      cbn [for_each]. rewrite bind_run.
      rewrite (process_batch_run env subs start st _ _ _ _ Hjob), slice_length.
      replace (Z.of_nat (Nat.min start (length subs))
               + Z.of_nat (Nat.min batch_size (length subs - start)))
        with (Z.of_nat (Nat.min (start + batch_size) (length subs))) by lia.
      destruct (cycle_io env (CommitBatch start)) as [e |] eqn:Hio.
      * split; [eauto |]. exists []. split; [apply prefix_nil |].
        cbn. rewrite app_nil_r. reflexivity.
      * match goal with
        | |- context [for_each _ _ ?st1] => specialize (IH (start + batch_size)%nat st1)
        end.
        cbn [cs_job cs_rows] in IH. specialize (IH eq_refl).
        match goal with
        | |- context [for_each ?l ?f ?st1] => destruct (for_each l f st1) as [[[] | e] st']
        end.
        -- destruct IH as (Hrows & m & Hm & Hfull). split.
           ++ rewrite Hrows, <- app_assoc. reflexivity.
           ++ exists m. split; [exact Hm | intros; apply Hfull; lia].
        -- destruct IH as (Hp & rows & Hpre & Hrows). split; [exact Hp |].
           eexists (_ :: rows). split; [apply prefix_cons, Hpre |].
           rewrite Hrows, <- app_assoc. reflexivity.
    + rewrite batch_rows_stop by exact Hge.
      simpl range_from. rewrite (proj2 (Nat.ltb_ge _ _) Hge). simpl.
      split; [rewrite app_nil_r; reflexivity |].
      exists (Nat.min start (length subs)). split; [exact Hjob | lia].
Qed.

Lemma execute_select_due_run env st :
  execute_select_due env st
  = match cycle_io env SelectDue with
    | None => (Ok (select_due (date_of (cycle_today env)) (cs_db st)), st)
    | Some e => (Raise e, st)
    end.
Proof. unfold execute_select_due. destruct (cycle_io env SelectDue); reflexivity. Qed.

(** The [try] block: it returns with all the rows of the run written, the
    completed one last; it raises only when a round trip raises, having
    written some of the rows that precede the completed one. *)
Lemma billing_cycle_body_run env id db :
  let n := length (select_due (date_of (cycle_today env)) db) in
  match billing_cycle_body env
          {| cs_db := db; cs_job := new_billing_job id (cycle_started_at env);
             cs_rows := [] |} with
  | (Ok _, st') => cs_rows st' = running_rows env id n ++ [completed_job env id n]
  | (Raise e, st') =>
      (exists p, cycle_io env p = Some e)
      /\ cs_rows st' `prefix_of` running_rows env id n
  end.
Proof.
  cbv zeta. unfold billing_cycle_body, running_rows.
  set (subs := select_due (date_of (cycle_today env)) db).
  rewrite bind_run, commit_run.
  destruct (cycle_io env InsertJob) as [e |] eqn:H1;
    [split; [eauto | apply prefix_nil] |].
  rewrite bind_run, execute_select_due_run. cbn [cs_db cs_job cs_rows app].
  destruct (cycle_io env SelectDue) as [e |] eqn:H2;
    [split; [eauto | apply prefix_cons, prefix_nil] |].
  fold subs. rewrite bind_run. cbn [modify_job modify cs_db cs_job cs_rows].
  rewrite bind_run, commit_run. cbn [cs_db cs_job cs_rows app].
  destruct (cycle_io env CommitTotal) as [e |] eqn:H3;
    [split; [eauto | apply prefix_cons, prefix_nil] |].
  rewrite bind_run. unfold range.
  match goal with
  | |- context [for_each _ _ ?st1] =>
      pose proof (batch_loop_run env subs id (cycle_started_at env) (length subs) 0%nat st1
                    eq_refl) as Hloop;
      destruct (for_each (range_from (length subs) 0 (length subs) batch_size)
                  (process_batch env subs) st1) as [[[] | e] st']
  end.
  - destruct Hloop as (Hrows & m & Hm & Hfull). specialize (Hfull ltac:(lia)). subst m.
    rewrite bind_run. cbn [modify_job modify cs_db cs_job cs_rows].
    rewrite bind_run. cbn [modify_job modify cs_db cs_job cs_rows].
    rewrite commit_run. cbn [cs_db cs_job cs_rows].
    cbn [cs_rows] in Hrows. rewrite Hrows, Hm.
    destruct (cycle_io env CommitCompleted) as [e |] eqn:H4.
    + split; [eauto |]. cbn [cs_rows]. reflexivity.
    + cbn [cs_rows]. reflexivity.
  - destruct Hloop as (Hp & rows & Hpre & Hrows). split; [exact Hp |].
    cbn [cs_rows] in Hrows. rewrite Hrows. cbn [app].
    do 2 apply prefix_cons. exact Hpre.
Qed.

(** The rows of a run: all of them, or some of those that precede the
    completed one, followed or not by a failed copy of the last. *)
Lemma billing_cycle_rows env id db :
  let n := length (select_due (date_of (cycle_today env)) db) in
  let rows := cs_rows (process_billing_cycle_async env id db).2 in
  rows = running_rows env id n ++ [completed_job env id n]
  \/ (exists q e, cycle_io env q = Some e)
     /\ exists p,
          p `prefix_of` running_rows env id n
          /\ (rows = p \/ exists e row, last p = Some row /\ rows = p ++ [fail_job env e row]).
Proof.
  cbv zeta. unfold process_billing_cycle_async, try_except.
  pose proof (billing_cycle_body_run env id db) as Hbody. cbv zeta in Hbody.
  destruct (billing_cycle_body env _) as [[[] | e] st'].
  - left. exact Hbody.
  - right. destruct Hbody as ((q & Hq) & Hpre). split; [eauto |].
    exists (cs_rows st'). split; [exact Hpre |].
    unfold billing_cycle_handler. rewrite bind_run.
    destruct (cycle_io env UpdateFailed); [left; reflexivity |].
    cbn [round_trip]. unfold mret, M_ret, ret. rewrite bind_run.
    destruct (cycle_io env CommitFailed); [left; reflexivity |].
    cbn. unfold mark_failed.
    destruct (last (cs_rows st')) as [row |]; [right; eauto | left; reflexivity].
Qed.

Lemma billing_cycle_rows_no_fault env id db :
  (forall p, cycle_io env p = None) ->
  cs_rows (process_billing_cycle_async env id db).2
  = running_rows env id (length (select_due (date_of (cycle_today env)) db))
      ++ [completed_job env id (length (select_due (date_of (cycle_today env)) db))].
Proof.
  intros Hio. destruct (billing_cycle_rows env id db) as [H | ((q & e & Hq) & _)];
    [exact H | rewrite Hio in Hq; discriminate Hq].
Qed.

Lemma running_rows_running env id n : Forall running_row (running_rows env id n).
Proof.
  unfold running_rows, running_row.
  constructor; [simpl; repeat split; lia |].
  constructor; [simpl; repeat split; lia |].
  unfold batch_rows. apply Forall_map, Forall_forall. intros i _. simpl.
  repeat split; lia.
Qed.

Lemma fail_job_counters env e row :
  job_status (fail_job env e row) = "failed"
  /\ total_subscriptions (fail_job env e row) = total_subscriptions row
  /\ processed_count (fail_job env e row) = processed_count row
  /\ success_count (fail_job env e row) = success_count row
  /\ failure_count (fail_job env e row) = failure_count row.
Proof. repeat split. Qed.

Lemma completed_job_counters env id n :
  job_status (completed_job env id n) = "completed"
  /\ total_subscriptions (completed_job env id n) = Z.of_nat n
  /\ processed_count (completed_job env id n) = Z.of_nat n
  /\ success_count (completed_job env id n) = Z.of_nat n
  /\ failure_count (completed_job env id n) = 0.
Proof. repeat split. Qed.

(** The shape of the rows of any run: running rows, then nothing, or the
    completed row, or a failed copy of one of the running rows. *)
Lemma billing_cycle_rows_shape env id db :
  let n := length (select_due (date_of (cycle_today env)) db) in
  exists p tail,
    cs_rows (process_billing_cycle_async env id db).2 = p ++ tail
    /\ Forall running_row p
    /\ (tail = []
        \/ tail = [completed_job env id n]
        \/ exists e row, row ∈ p /\ tail = [fail_job env e row]).
Proof.
  cbv zeta.
  destruct (billing_cycle_rows env id db) as [H | (_ & p & Hpre & H)].
  - eexists _, _. split; [exact H |]. split; [apply running_rows_running | auto].
  - assert (Forall running_row p) as Hp.
    { destruct Hpre as [k Hk].
      pose proof (running_rows_running env id
                    (length (select_due (date_of (cycle_today env)) db))) as Hall.
      rewrite Hk in Hall. apply Forall_app in Hall. tauto. }
    destruct H as [H | (e & row & Hlast & H)].
    + exists p, []. rewrite app_nil_r. auto.
    + exists p, [fail_job env e row]. split; [exact H |]. split; [exact Hp |].
      right; right. exists e, row. split; [| reflexivity].
      apply last_Some in Hlast as [l' ->]. set_solver.
Qed.

Lemma running_row_not_terminal j : running_row j -> terminal j -> False.
Proof. intros (Hs & _) [H | H]; rewrite Hs in H; discriminate H. Qed.

(** Whatever the payments give, no row of a run counts a failure. *)
Lemma billing_cycle_no_failure_counted env id db j :
  j ∈ cs_rows (process_billing_cycle_async env id db).2 ->
  failure_count j = 0 /\ success_count j = processed_count j.
Proof.
  destruct (billing_cycle_rows_shape env id db) as (p & tail & -> & Hp & Htail).
  rewrite Forall_forall in Hp.
  intros [Hj | Hj]%elem_of_app.
  - destruct (Hp j Hj) as (_ & ? & ? & _). auto.
  - destruct Htail as [-> | [-> | (e & row & Hrow & ->)]].
    + by apply elem_of_nil in Hj.
    + apply list_elem_of_singleton in Hj as ->. split; reflexivity.
    + apply list_elem_of_singleton in Hj as ->.
      destruct (Hp row Hrow) as (_ & ? & ? & _). auto.
Qed.

(** A run whose second batch fails to commit: the first batch is on
    record, the job ends failed with the counters of that record. *)
Example failed_run_rows :
  map (fun j => (job_status j, processed_count j, success_count j, failure_count j))
      (cs_rows (process_billing_cycle_async cycle_second_commit_fails "job-2"
                  sample_db_25).2)
  = [("running", 0, 0, 0); ("running", 0, 0, 0); ("running", 10, 10, 0);
     ("failed", 10, 10, 0)].
Proof. vm_compute. reflexivity. Qed.

(** C6: in every run, every version of the job row that a commit writes
    has [processed_count = success_count + failure_count] and
    [processed_count <= total_subscriptions]; a completed version has
    [processed_count = success_count + failure_count = total_subscriptions];
    a version that is completed or failed is the last one written, so no
    counter changes after it; when every round trip to the database
    succeeds the run ends with a completed row; and each turn of the loop
    over the results keeps [processed_count = success_count + failure_count]
    on the job object. *)
Theorem job_counters_invariant env id db :
  let rows := cs_rows (process_billing_cycle_async env id db).2 in
  (forall j, j ∈ rows -> counters_consistent j)
  /\ (forall j, j ∈ rows -> job_status j = "completed" ->
        processed_count j = success_count j + failure_count j
        /\ processed_count j = total_subscriptions j)
  /\ (forall k j, rows !! k = Some j -> terminal j -> S k = length rows)
  /\ ((forall p, cycle_io env p = None) ->
        exists j, final_job (process_billing_cycle_async env id db) = Some j
                  /\ job_status j = "completed")
  /\ (forall r j,
        processed_count j = success_count j + failure_count j ->
        processed_count (record_result r j)
        = success_count (record_result r j) + failure_count (record_result r j)).
Proof.
  cbv zeta. split; [| split; [| split; [| split]]].
  - destruct (billing_cycle_rows_shape env id db) as (p & tail & -> & Hp & Htail).
    rewrite Forall_forall in Hp. unfold counters_consistent.
    intros j [Hj | Hj]%elem_of_app.
    + destruct (Hp j Hj) as (_ & ? & ? & ?). lia.
    + destruct Htail as [-> | [-> | (e & row & Hrow & ->)]].
      * by apply elem_of_nil in Hj.
      * apply list_elem_of_singleton in Hj as ->. simpl. lia.
      * apply list_elem_of_singleton in Hj as ->.
        destruct (Hp row Hrow) as (_ & ? & ? & ?). simpl. lia.
  - destruct (billing_cycle_rows_shape env id db) as (p & tail & -> & Hp & Htail).
    rewrite Forall_forall in Hp.
    intros j [Hj | Hj]%elem_of_app Hdone.
    + destruct (Hp j Hj) as (Hrun & _). rewrite Hrun in Hdone. discriminate Hdone.
    + destruct Htail as [-> | [-> | (e & row & Hrow & ->)]].
      * by apply elem_of_nil in Hj.
      * apply list_elem_of_singleton in Hj as ->. simpl. lia.
      * apply list_elem_of_singleton in Hj as ->. discriminate Hdone.
  - destruct (billing_cycle_rows_shape env id db) as (p & tail & -> & Hp & Htail).
    intros k j Hk Hterm. rewrite length_app.
    destruct (decide (k < length p)%nat) as [Hlt | Hge].
    + rewrite lookup_app_l in Hk by exact Hlt.
      rewrite Forall_forall in Hp.
      destruct (running_row_not_terminal j); [| exact Hterm].
      apply Hp. eapply list_elem_of_lookup_2, Hk.
    + rewrite lookup_app_r in Hk by lia.
      apply lookup_lt_Some in Hk as Hlen.
      destruct Htail as [-> | [-> | (e & row & Hrow & ->)]]; simpl in *; lia.
  - intros Hio. unfold final_job. rewrite billing_cycle_rows_no_fault by exact Hio.
    rewrite last_snoc. eexists. split; reflexivity.
  - intros [b | e] j Hj; simpl; lia.
Qed.

Lemma job_counters_invariant_witness :
  exists j,
    final_job (process_billing_cycle_async (cycle_with draw_approve) "job-1" sample_db_25)
    = Some j
    /\ job_status j = "completed"
    /\ processed_count j = success_count j + failure_count j
    /\ processed_count j = total_subscriptions j.
Proof.
  pose proof (job_counters_invariant (cycle_with draw_approve) "job-1" sample_db_25) as H.
  cbv zeta in H. unfold final_job in *. revert H.
  generalize (process_billing_cycle_async (cycle_with draw_approve) "job-1" sample_db_25).
  intros run (_ & Hdone & _ & Hend & _).
  destruct (Hend (fun _ => eq_refl)) as (j & Hj & Hs).
  exists j. split; [exact Hj |]. split; [exact Hs |].
  apply Hdone; [| exact Hs].
  apply last_Some in Hj as [l' Hl']. rewrite Hl'.
  apply elem_of_app. right. apply list_elem_of_singleton. reflexivity.
Defined.

(** C1, on the code: one subscription is due, its payment is declined, the
    attempt writes a [FAILED] history row and leaves the subscription
    [PAST_DUE]; the job ends completed with [success_count = 1] and
    [failure_count = 0], because the attempt returns [False] and the loop
    over the results counts as failures only the exceptions. *)
Theorem declined_payment_counted_as_success :
  let run := process_billing_cycle_async (cycle_with draw_decline) "job-1" sample_db in
  select_due (date_of jan20) sample_db = [sample_subscription 1]
  /\ success (attempt_payment (attempt_with draw_decline) (sample_subscription 1)) = false
  /\ map bh_status (billing_history (cs_db run.2)) = [FAILED]
  /\ sub_status <$> subscriptions (cs_db run.2) !! 1 = Some PAST_DUE
  /\ (fun j => (job_status j, total_subscriptions j, processed_count j,
                success_count j, failure_count j)) <$> final_job run
     = Some ("completed", 1, 1, 1, 0).
Proof. vm_compute. repeat split. Qed.

(** *** The session of a run *)

Lemma insert_by_key_Permutation {A} (key : A -> Z) (x : A) (l : list A) :
  insert_by_key key x l ≡ₚ x :: l.
Proof.
  induction l as [| y l IH]; cbn; [reflexivity |].
  case_decide; [reflexivity |]. rewrite IH. apply Permutation_swap.
Qed.

Lemma sort_by_key_Permutation {A} (key : A -> Z) (l : list A) : sort_by_key key l ≡ₚ l.
Proof.
  induction l as [| x l IH]; cbn; [reflexivity |].
  rewrite insert_by_key_Permutation. apply Permutation_skip, IH.
Qed.

(** The tasks of a batch all complete, each once. *)
Lemma completion_order_Permutation env batch : completion_order env batch ≡ₚ batch.
Proof. apply sort_by_key_Permutation. Qed.

Lemma elem_of_completion_order env batch s : s ∈ completion_order env batch <-> s ∈ batch.
Proof. rewrite completion_order_Permutation. reflexivity. Qed.

Lemma complete_tasks_cons env s l db :
  complete_tasks env (s :: l) db
  = complete_tasks env l (_process_subscription_billing (cycle_attempt env (sub_id s)) db s).2.
Proof. reflexivity. Qed.

Lemma complete_tasks_history env l db :
  billing_history (complete_tasks env l db)
  = billing_history db
    ++ map (fun s => billing_record_of (cycle_attempt env (sub_id s)) s) l.
Proof.
  revert db. induction l as [| s l IH]; intros db.
  - simpl. rewrite app_nil_r. reflexivity.
  - rewrite complete_tasks_cons, IH, attempt_run. simpl.
    rewrite <- app_assoc. reflexivity.
Qed.

Lemma complete_tasks_plans env l db :
  subscription_plans (complete_tasks env l db) = subscription_plans db.
Proof.
  revert db. induction l as [| s l IH]; intros db; [reflexivity |].
  rewrite complete_tasks_cons, IH, attempt_run. reflexivity.
Qed.

Lemma complete_tasks_frame env l db k :
  (forall s, s ∈ l -> sub_id s <> k) ->
  subscriptions (complete_tasks env l db) !! k = subscriptions db !! k.
Proof.
  revert db. induction l as [| s l IH]; intros db Hk; [reflexivity |].
  rewrite complete_tasks_cons, IH
    by (intros s' Hs'; apply Hk, elem_of_cons; right; exact Hs').
  rewrite attempt_run. simpl.
  apply lookup_insert_ne. rewrite billed_id. apply Hk, elem_of_cons. left. reflexivity.
Qed.

Lemma complete_tasks_outcome env l db s :
  NoDup (map sub_id l) -> s ∈ l ->
  subscriptions (complete_tasks env l db) !! sub_id s
  = Some (billed (cycle_attempt env (sub_id s)) s).
Proof.
  revert db. induction l as [| s0 l IH]; intros db Hnd Hs.
  - by apply elem_of_nil in Hs.
  - rewrite complete_tasks_cons. simpl in Hnd. apply NoDup_cons in Hnd as [Hnotin Hnd].
    apply elem_of_cons in Hs as [-> | Hs].
    + rewrite complete_tasks_frame.
      * apply attempt_subscription.
      * intros s' Hs' Heq. apply Hnotin. rewrite <- Heq.
        apply list_elem_of_fmap. eauto.
    + apply IH; assumption.
Qed.

Lemma gather_history env batch db :
  billing_history (gather env batch db).1
  = billing_history db
    ++ map (fun s => billing_record_of (cycle_attempt env (sub_id s)) s)
         (completion_order env batch).
Proof. apply complete_tasks_history. Qed.

Lemma gather_plans env batch db :
  subscription_plans (gather env batch db).1 = subscription_plans db.
Proof. apply complete_tasks_plans. Qed.

Lemma gather_frame env batch db k :
  (forall s, s ∈ batch -> sub_id s <> k) ->
  subscriptions (gather env batch db).1 !! k = subscriptions db !! k.
Proof.
  intros Hk. apply complete_tasks_frame.
  intros s Hs. apply Hk. apply elem_of_completion_order in Hs. exact Hs.
Qed.

Lemma gather_outcome env batch db s :
  NoDup (map sub_id batch) -> s ∈ batch ->
  subscriptions (gather env batch db).1 !! sub_id s
  = Some (billed (cycle_attempt env (sub_id s)) s).
Proof.
  intros Hnd Hs. apply complete_tasks_outcome.
  - assert (map sub_id (completion_order env batch) ≡ₚ map sub_id batch) as ->
      by apply Permutation_map, completion_order_Permutation.
    exact Hnd.
  - apply elem_of_completion_order. exact Hs.
Qed.

Lemma run_batches_cons env b bs db :
  run_batches env (b :: bs) db = run_batches env bs (gather env b db).1.
Proof. reflexivity. Qed.

Lemma run_batches_history env bs db :
  billing_history (run_batches env bs db)
  = billing_history db
    ++ concat (map (fun b => map (fun s => billing_record_of (cycle_attempt env (sub_id s)) s)
                               (completion_order env b)) bs).
Proof.
  revert db. induction bs as [| b bs IH]; intros db.
  - simpl. rewrite app_nil_r. reflexivity.
  - rewrite run_batches_cons, IH, gather_history. simpl.
    rewrite <- app_assoc. reflexivity.
Qed.

Lemma run_batches_plans env bs db :
  subscription_plans (run_batches env bs db) = subscription_plans db.
Proof.
  revert db. induction bs as [| b bs IH]; intros db; [reflexivity |].
  rewrite run_batches_cons, IH, gather_plans. reflexivity.
Qed.

Lemma run_batches_frame env bs db k :
  (forall s, s ∈ concat bs -> sub_id s <> k) ->
  subscriptions (run_batches env bs db) !! k = subscriptions db !! k.
Proof.
  revert db. induction bs as [| b bs IH]; intros db Hk; [reflexivity |].
  rewrite run_batches_cons, IH
    by (intros s Hs; apply Hk; simpl; apply elem_of_app; right; exact Hs).
  apply gather_frame. intros s Hs. apply Hk. simpl. apply elem_of_app. left. exact Hs.
Qed.

Lemma run_batches_outcome env bs db s :
  NoDup (map sub_id (concat bs)) -> s ∈ concat bs ->
  subscriptions (run_batches env bs db) !! sub_id s
  = Some (billed (cycle_attempt env (sub_id s)) s).
Proof.
  revert db. induction bs as [| b bs IH]; intros db Hnd Hs.
  - by apply elem_of_nil in Hs.
  - rewrite run_batches_cons. simpl in Hnd, Hs. rewrite map_app in Hnd.
    apply NoDup_app in Hnd as (Hb & Hdisj & Hbs).
    apply elem_of_app in Hs as [Hs | Hs].
    + rewrite run_batches_frame; [apply gather_outcome; assumption |].
      intros s' Hs' Heq. apply (Hdisj (sub_id s)).
      * apply list_elem_of_fmap. eauto.
      * rewrite <- Heq. apply list_elem_of_fmap. eauto.
    + apply IH; assumption.
Qed.

Lemma process_batch_result env subs i st :
  let g := gather env (slice subs i (i + batch_size)) (cs_db st) in
  let j := fold_left (fun j r => record_result r j) g.2 (cs_job st) in
  process_batch env subs i st
  = match cycle_io env (CommitBatch i) with
    | None => (Ok tt, {| cs_db := g.1; cs_job := j; cs_rows := cs_rows st ++ [j] |})
    | Some e => (Raise e, {| cs_db := g.1; cs_job := j; cs_rows := cs_rows st |})
    end.
Proof.
  cbv zeta. unfold process_batch. rewrite bind_run. unfold gather_batch.
  destruct (gather env (slice subs i (i + batch_size)) (cs_db st)) as [db' rs].
  rewrite bind_run, for_each_record, commit_run. cbn [cs_db cs_job cs_rows fst snd].
  reflexivity.
Qed.

(** The session after the loop over the batches: the batches were run one
    after the other, up to the batch whose commit raised if one did. *)
Lemma batch_loop_session env subs fuel :
  forall start st,
    let starts := range_from fuel start (length subs) batch_size in
    let out := for_each starts (process_batch env subs) st in
    exists ran,
      ran `prefix_of` map (fun i => slice subs i (i + batch_size)) starts
      /\ cs_db out.2 = run_batches env ran (cs_db st)
      /\ (out.1 = Ok tt -> ran = map (fun i => slice subs i (i + batch_size)) starts).
Proof.
  cbv zeta. induction fuel as [| fuel IH]; intros start st.
  - exists []. simpl. split; [apply prefix_nil |]. split; reflexivity.
  - simpl range_from. destruct (start <? length subs)%nat eqn:Hlt.
    + cbn [for_each map]. rewrite bind_run, process_batch_result.
      destruct (cycle_io env (CommitBatch start)) as [e |].
      * exists [slice subs start (start + batch_size)]. cbn [fst snd cs_db].
        split; [apply prefix_cons, prefix_nil |].
        split; [reflexivity | discriminate].
      * match goal with
        | |- context [for_each _ _ ?st1] =>
            destruct (IH (start + batch_size)%nat st1) as (ran & Hpre & Hdb & Hfull)
        end.
        exists (slice subs start (start + batch_size) :: ran).
        split; [apply prefix_cons, Hpre |].
        split; [rewrite Hdb; reflexivity |].
        intros Hok. rewrite Hfull by exact Hok. reflexivity.
    + exists []. simpl. split; [apply prefix_nil |]. split; reflexivity.
Qed.

(** The session a run leaves: the batches of the due subscriptions were
    run one after the other, all of them when every round trip succeeds. *)
Lemma billing_cycle_session env id db :
  let due := select_due (date_of (cycle_today env)) db in
  exists ran,
    ran `prefix_of` batches due
    /\ cs_db (process_billing_cycle_async env id db).2 = run_batches env ran db
    /\ ((forall p, cycle_io env p = None) -> ran = batches due).
Proof.
  cbv zeta. set (due := select_due (date_of (cycle_today env)) db).
  unfold process_billing_cycle_async, try_except.
  assert (forall e st, cs_db (billing_cycle_handler env e st).2 = cs_db st) as Hhandler.
  { intros e st. unfold billing_cycle_handler. rewrite bind_run.
    destruct (cycle_io env UpdateFailed); [reflexivity |].
    cbn [round_trip]. unfold mret, M_ret, ret. rewrite bind_run.
    destruct (cycle_io env CommitFailed); reflexivity. }
  unfold billing_cycle_body.
  rewrite bind_run, commit_run.
  destruct (cycle_io env InsertJob) as [e |] eqn:H1.
  { exists []. split; [apply prefix_nil |]. rewrite Hhandler.
    split; [reflexivity |]. intros Hio. rewrite Hio in H1. discriminate H1. }
  rewrite bind_run, execute_select_due_run. cbn [cs_db cs_job cs_rows app].
  destruct (cycle_io env SelectDue) as [e |] eqn:H2.
  { exists []. split; [apply prefix_nil |]. rewrite Hhandler.
    split; [reflexivity |]. intros Hio. rewrite Hio in H2. discriminate H2. }
  fold due. rewrite bind_run. cbn [modify_job modify cs_db cs_job cs_rows].
  rewrite bind_run, commit_run. cbn [cs_db cs_job cs_rows app].
  destruct (cycle_io env CommitTotal) as [e |] eqn:H3.
  { exists []. split; [apply prefix_nil |]. rewrite Hhandler.
    split; [reflexivity |]. intros Hio. rewrite Hio in H3. discriminate H3. }
  rewrite bind_run. unfold batches, range.
  match goal with
  | |- context [for_each _ _ ?st1] =>
      pose proof (batch_loop_session env due (length due) 0%nat st1) as Hloop;
      pose proof (batch_loop_run env due id (cycle_started_at env) (length due) 0%nat st1
                    eq_refl) as Hrun;
      cbv zeta in Hloop;
      destruct (for_each (range_from (length due) 0 (length due) batch_size)
                  (process_batch env due) st1) as [[[] | e] st']
  end.
  - destruct Hloop as (ran & Hpre & Hdb & Hfull).
    specialize (Hfull eq_refl). subst ran.
    eexists. split; [reflexivity |]. split; [| reflexivity].
    rewrite bind_run. cbn [modify_job modify cs_db cs_job cs_rows].
    rewrite bind_run. cbn [modify_job modify cs_db cs_job cs_rows].
    rewrite commit_run. cbn [cs_db cs_job cs_rows].
    destruct (cycle_io env CommitCompleted); [rewrite Hhandler |]; exact Hdb.
  - destruct Hloop as (ran & Hpre & Hdb & _).
    exists ran. split; [exact Hpre |]. rewrite Hhandler. split; [exact Hdb |].
    intros Hio. destruct Hrun as ((p & Hp) & _). rewrite Hio in Hp. discriminate Hp.
Qed.

(** The subscriptions of the batches that were run are due ones. *)
Lemma ran_batches_due {A} (ran : list (list A)) (l : list A) (x : A) :
  ran `prefix_of` batches l -> x ∈ concat ran -> x ∈ l.
Proof.
  intros [rest Hrest] Hx. rewrite <- (batches_concat l), Hrest, concat_app.
  apply elem_of_app. left. exact Hx.
Qed.

(** C9: the batches are consecutive slices of the due subscriptions, in
    their order: concatenated they give the sequence back, every batch but
    the last has [batch_size] = 10 members and none is empty.  A run whose
    round trips succeed bills these batches one after the other: the rows
    it adds to the billing history are those of the first batch, then those
    of the second, and so on, the rows of one batch being one for each
    member of the batch, in the order the payments complete.  When 25
    subscriptions are due, the batches have 10, 10 and 5 members, the
    commits that close them write the progress 10, 20 and 25, and the job
    ends completed with [processed_count = 25 = success_count +
    failure_count]. *)
Theorem batches_partition :
  (forall l : list Subscription,
     concat (batches l) = l
     /\ (forall k b, batches l !! k = Some b ->
                     (S k < length (batches l))%nat -> length b = 10%nat)
     /\ Forall (fun b : list Subscription => (1 <= length b <= 10)%nat) (batches l))
  /\ (forall env id db,
        (forall p, cycle_io env p = None) ->
        let due := select_due (date_of (cycle_today env)) db in
        let run := process_billing_cycle_async env id db in
        exists rows : list (list BillingHistory),
          billing_history (cs_db run.2) = billing_history db ++ concat rows
          /\ Forall2 (fun (rs : list BillingHistory) (batch : list Subscription) =>
                        map bh_subscription_id rs ≡ₚ map sub_id batch)
               rows (batches due))
  /\ forall env id db,
       (forall p, cycle_io env p = None) ->
       length (select_due (date_of (cycle_today env)) db) = 25%nat ->
       let run := process_billing_cycle_async env id db in
       map length (batches (select_due (date_of (cycle_today env)) db))
         = [10; 10; 5]%nat
       /\ map processed_count (cs_rows run.2) = [0; 0; 10; 20; 25; 25]
       /\ exists j, final_job run = Some j
                    /\ job_status j = "completed"
                    /\ total_subscriptions j = 25
                    /\ processed_count j = 25
                    /\ success_count j + failure_count j = 25.
Proof.
  split; [| split].
  - intros l. split; [apply batches_concat |]. split; [| apply batches_nonempty].
    intros k b Hk Hlen. apply (slices_full l (length l) 0 k b Hk Hlen).
  - intros env id db Hio. cbv zeta.
    destruct (billing_cycle_session env id db) as (ran & _ & Hdb & Hall).
    rewrite Hdb, (Hall Hio), run_batches_history.
    eexists. split; [reflexivity |].
    apply Forall2_fmap_l, Forall_Forall2_diag, Forall_forall.
    intros b _. unfold compose. rewrite map_map. cbn.
    apply Permutation_map, completion_order_Permutation.
  - intros env id db Hio Hdue. cbv zeta. split; [| split].
    + rewrite batches_lengths, Hdue. reflexivity.
    + rewrite billing_cycle_rows_no_fault, Hdue by exact Hio. reflexivity.
    + unfold final_job. rewrite billing_cycle_rows_no_fault, Hdue by exact Hio.
      rewrite last_snoc. eexists. repeat split.
Qed.

Lemma batches_partition_witness :
  let due := select_due (date_of jan20) sample_db_25 in
  let run := process_billing_cycle_async cycle_mixed "job-1" sample_db_25 in
  map length (batches due) = [10; 10; 5]%nat
  /\ map processed_count (cs_rows run.2) = [0; 0; 10; 20; 25; 25]
  /\ exists rows : list (list BillingHistory),
       billing_history (cs_db run.2) = billing_history sample_db_25 ++ concat rows
       /\ Forall2 (fun (rs : list BillingHistory) (batch : list Subscription) =>
                     map bh_subscription_id rs ≡ₚ map sub_id batch)
            rows (batches due).
Proof.
  cbv zeta.
  destruct batches_partition as (_ & Htie & H25).
  destruct (H25 cycle_mixed "job-1" sample_db_25 (fun _ => eq_refl)) as (H1 & H2 & _).
  - vm_compute. reflexivity.
  - split; [exact H1 |]. split; [exact H2 |].
    exact (Htie cycle_mixed "job-1" sample_db_25 (fun _ => eq_refl)).
Defined.

(** * Further properties of the code *)

(** ** The payment service *)

(** X1: whatever the gateway does, [process_payment] returns a result that
    carries the transaction id drawn at the start; the result is a success
    exactly when the gateway call returns and the payment is approved, and
    it has a failure reason exactly when it is not a success. *)
Theorem process_payment_result (d : PaymentDraw) (uid : Z) (amount : Decimal)
    (descr : string) :
  let r := process_payment d uid amount descr in
  transaction_id r = Some (draw_uuid d)
  /\ (success r = true <-> draw_timeout d = false /\ draw_approved d = true)
  /\ (success r = true <-> failure_reason r = None).
Proof.
  cbv zeta. unfold process_payment, _simulate_payment_gateway_call.
  destruct (draw_timeout d), (draw_approved d); simpl;
    (split; [reflexivity |]); split; split; try tauto; try discriminate;
    intros [? ?]; discriminate.
Qed.

(** X2: [refund_payment] succeeds exactly when the gateway call returns and
    the refund is approved; a successful refund carries the id of the
    refund and no failure reason; a failed one carries no transaction id
    and a reason, which tells a refused refund from a gateway error. *)
Theorem refund_payment_result (d : PaymentDraw) (tx : string) (amount : option Decimal) :
  let r := refund_payment d tx amount in
  (success r = true <-> draw_timeout d = false /\ draw_approved d = true)
  /\ (success r = true ->
      transaction_id r = Some (draw_uuid d) /\ failure_reason r = None)
  /\ (success r = false ->
      transaction_id r = None
      /\ failure_reason r
         = Some (if draw_timeout d
                 then "System error: Gateway timeout"
                 else "Original transaction not found or not eligible for refund"))
  /\ processing_time_ms r = 0.
Proof.
  cbv zeta. unfold refund_payment, _simulate_payment_gateway_call.
  destruct (draw_timeout d), (draw_approved d); simpl;
    repeat split; try tauto; try discriminate; intros [? ?]; discriminate.
Qed.

(** ** One billing attempt *)

(** X3: a billing attempt touches only the subscription it bills: every
    other subscription and every plan is as before, the history rows
    already there are kept, and of the subscription billed only the status
    and the next billing date can change. *)
Theorem attempt_frame env db s :
  let db' := (_process_subscription_billing env db s).2 in
  (forall k, k <> sub_id s -> subscriptions db' !! k = subscriptions db !! k)
  /\ subscription_plans db' = subscription_plans db
  /\ billing_history db `prefix_of` billing_history db'
  /\ exists s',
       subscriptions db' !! sub_id s = Some s'
       /\ set_sub_status (sub_status s)
            (set_sub_next_billing_date (sub_next_billing_date s) s') = s.
Proof.
  cbv zeta. split; [| split; [| split]].
  - intros k Hk. rewrite attempt_run. simpl.
    apply lookup_insert_ne. rewrite billed_id. congruence.
  - rewrite attempt_run. reflexivity.
  - rewrite attempt_run. simpl. apply prefix_app_r. reflexivity.
  - exists (billed env s). split; [apply attempt_subscription |].
    unfold billed. destruct (success _); [destruct (advanced_date s) |];
      destruct s; reflexivity.
Qed.

(** ** create_subscription *)

(** X4: a request without trial (no override or override 0, and a plan
    without trial days) on a plan read from the database creates nothing:
    [plan.billing_cycle] is a string, [plan.billing_cycle.value] raises
    [AttributeError], and [create_subscription] raises it again with the
    session as before, although every round trip succeeds.  Only for a
    plan that holds the enum member is the subscription created; it has no
    [trial_ends_at] then, and its first [next_billing_date] is the one
    [_calculate_next_billing_date] gives from the time of creation: 7, 30
    or 365 days later. *)
Theorem create_subscription_no_trial env db subscription_data plan :
  create_select env = None ->
  subscription_plans db !! sc_plan_id subscription_data = Some plan ->
  or_int (sc_trial_days_override subscription_data) (plan_trial_days plan) <= 0 ->
  match plan_billing_cycle plan with
  | Loaded _ =>
      create_subscription env db subscription_data
      = (Raise "'str' object has no attribute 'value'", db)
  | Member c =>
      forall sub db',
        create_subscription env db subscription_data = (Ok sub, db') ->
        sub_trial_ends_at sub = None
        /\ _calculate_next_billing_date (create_now env) (BillingCycle_value c)
           = Ok (sub_next_billing_date sub)
        /\ sub_next_billing_date sub = create_now env + timedelta_days (cycle_days c)
  end.
Proof.
  intros Hsel Hplan Hdays.
  rewrite create_subscription_cases, Hsel, Hplan, new_subscription_no_trial by exact Hdays.
  destruct (plan_billing_cycle plan) as [c | v]; [| reflexivity].
  intros sub db'. rewrite calculate_next_billing_date_value. unfold datetime_add.
  case_decide; [| discriminate].
  destruct (create_commit env); [discriminate |].
  destruct (create_refresh env); [discriminate |].
  intros [= <- <-]. repeat split.
Qed.

Lemma create_subscription_no_trial_witness :
  create_subscription create_ok sample_db_plans (create_request_on 2 None)
  = (Raise "'str' object has no attribute 'value'", sample_db_plans).
Proof.
  apply (create_subscription_no_trial create_ok sample_db_plans (create_request_on 2 None)
           plan_yearly); [reflexivity | reflexivity |].
  simpl. lia.
Defined.

(** X5: a positive [trial_days_override] decides the trial whatever the
    plan says: the subscription is created with [trial_ends_at] and
    [next_billing_date] that many days after the time of creation. *)
Theorem create_subscription_override_wins env db subscription_data sub db' n :
  create_subscription env db subscription_data = (Ok sub, db') ->
  sc_trial_days_override subscription_data = Some n ->
  n > 0 ->
  sub_trial_ends_at sub = Some (create_now env + timedelta_days n)
  /\ sub_next_billing_date sub = create_now env + timedelta_days n.
Proof.
  intros Hok Hover Hn.
  apply create_subscription_ok in Hok as (plan & _ & Hsub & _).
  destruct (new_subscription_dates env subscription_data plan sub Hsub) as (H & _).
  rewrite Hover in H. simpl in H.
  destruct (decide (n = 0)) as [-> | _]; [lia |]. auto.
Qed.

Lemma create_subscription_override_wins_witness :
  exists sub db',
    create_subscription create_ok sample_db_plans (create_request_on 2 (Some 3))
    = (Ok sub, db')
    /\ sub_trial_ends_at sub = Some (jan20 + timedelta_days 3)
    /\ sub_next_billing_date sub = jan20 + timedelta_days 3.
Proof.
  eexists _, _. split; [reflexivity |].
  apply (create_subscription_override_wins create_ok sample_db_plans
           (create_request_on 2 (Some 3)) _ _ 3 eq_refl eq_refl).
  lia.
Defined.

(** X6: how [create_subscription] fails.  When the plan of the request
    does not exist it raises the [NoResultFound] of [scalar_one]; when the
    lookup raises, or the dates cannot be computed, it raises that
    exception again; when the object is built and the commit raises, it
    raises that exception again.  In all these cases the session is as it
    was before the call.  When the commit succeeds and the refresh raises,
    the exception is raised again but the subscription stays stored. *)
Theorem create_subscription_failure env db subscription_data :
  (create_select env = None ->
   subscription_plans db !! sc_plan_id subscription_data = None ->
   create_subscription env db subscription_data
   = (Raise "No row was found when one was required", db))
  /\ (forall e, create_select env = Some e ->
        create_subscription env db subscription_data = (Raise e, db))
  /\ (forall e plan,
        create_select env = None ->
        subscription_plans db !! sc_plan_id subscription_data = Some plan ->
        new_subscription env subscription_data plan = Raise e ->
        create_subscription env db subscription_data = (Raise e, db))
  /\ (forall e plan subscription,
        create_select env = None ->
        subscription_plans db !! sc_plan_id subscription_data = Some plan ->
        new_subscription env subscription_data plan = Ok subscription ->
        create_commit env = Some e ->
        create_subscription env db subscription_data = (Raise e, db))
  /\ (forall e plan subscription,
        create_select env = None ->
        subscription_plans db !! sc_plan_id subscription_data = Some plan ->
        new_subscription env subscription_data plan = Ok subscription ->
        create_commit env = None ->
        create_refresh env = Some e ->
        create_subscription env db subscription_data
        = (Raise e, store_subscription subscription db)).
Proof.
  rewrite create_subscription_cases. repeat split.
  - intros -> ->. reflexivity.
  - intros e ->. reflexivity.
  - intros e plan -> -> ->. reflexivity.
  - intros e plan subscription -> -> -> ->. reflexivity.
  - intros e plan subscription -> -> -> -> ->. reflexivity.
Qed.

Lemma create_subscription_failure_witness :
  create_subscription create_ok sample_db_plans (create_request_on 9 None)
  = (Raise "No row was found when one was required", sample_db_plans).
Proof.
  destruct (create_subscription_failure create_ok sample_db_plans (create_request_on 9 None))
    as (H & _).
  apply H; reflexivity.
Defined.

(** X7: a subscription that [create_subscription] returns is stored under
    the id the database assigned, with the user, the plan and the status of
    the request, started at the time of creation and not cancelled; its
    next billing date is strictly later than the time of creation, and its
    trial, if it has one, ends on that date.  The other subscriptions, the
    plans and the billing history are as before. *)
Theorem create_subscription_stored env db subscription_data sub db' :
  create_subscription env db subscription_data = (Ok sub, db') ->
  subscriptions db' !! create_id env = Some sub
  /\ sub_id sub = create_id env
  /\ sub_user_id sub = sc_user_id subscription_data
  /\ sub_plan_id sub = sc_plan_id subscription_data
  /\ subscription_plans db !! sc_plan_id subscription_data = Some (sub_plan sub)
  /\ sub_status sub = sc_status subscription_data
  /\ sub_started_at sub = create_now env
  /\ sub_cancelled_at sub = None
  /\ create_now env < sub_next_billing_date sub
  /\ (sub_trial_ends_at sub = None
      \/ sub_trial_ends_at sub = Some (sub_next_billing_date sub))
  /\ (forall k, k <> create_id env -> subscriptions db' !! k = subscriptions db !! k)
  /\ subscription_plans db' = subscription_plans db
  /\ billing_history db' = billing_history db.
Proof.
  intros Hok.
  apply create_subscription_ok in Hok as (plan & Hplan & Hsub & ->).
  pose proof (new_subscription_fields _ _ _ _ Hsub) as (Hid & Hu & Hp & Hst & Hstart & Hc & Hpl).
  pose proof (new_subscription_dates _ _ _ _ Hsub) as (Hpos & Hneg).
  assert (create_now env < sub_next_billing_date sub
          /\ (sub_trial_ends_at sub = None
              \/ sub_trial_ends_at sub = Some (sub_next_billing_date sub))) as (Hlater & Htrial).
  { destruct (decide (or_int (sc_trial_days_override subscription_data)
                        (plan_trial_days plan) > 0)) as [H | H].
    - destruct (Hpos H) as (Hte & Hnbd). rewrite Hte, Hnbd. split; [| auto].
      pose proof (timedelta_days_pos _ (proj1 (Z.gt_lt_iff _ _) H)). lia.
    - destruct (Hneg ltac:(lia)) as (Hte & c & _ & Hnbd). rewrite Hte, Hnbd.
      split; [| auto].
      pose proof (timedelta_days_pos (cycle_days c) ltac:(destruct c; simpl; lia)). lia. }
  rewrite Hpl.
  split; [simpl; rewrite <- Hid; apply lookup_insert_eq |].
  repeat (split; [assumption |]).
  split; [| split; reflexivity].
  intros k Hk. simpl. apply lookup_insert_ne. congruence.
Qed.

Lemma create_subscription_stored_witness :
  exists sub db',
    create_subscription create_ok sample_db_plans (create_request_on 1 None) = (Ok sub, db')
    /\ subscriptions db' !! 2 = Some sub
    /\ subscriptions db' !! 1 = Some (sample_subscription 1)
    /\ jan20 < sub_next_billing_date sub.
Proof.
  eexists _, _. split; [reflexivity |].
  destruct (create_subscription_stored create_ok sample_db_plans (create_request_on 1 None)
              _ _ eq_refl) as (H1 & _ & _ & _ & _ & _ & _ & _ & H9 & _ & H11 & _).
  split; [exact H1 |]. split; [| exact H9].
  rewrite (H11 1) by discriminate. reflexivity.
Defined.

(** ** process_initial_billing *)

Lemma process_initial_billing_cases env db subscription_id :
  process_initial_billing env db subscription_id
  = match initial_select env, subscriptions db !! subscription_id with
    | None, Some subscription =>
        match sub_trial_ends_at subscription with
        | None => (Ok tt, (_process_subscription_billing (initial_attempt env) db
                             subscription).2)
        | Some _ => (Ok tt, db)
        end
    | _, _ => (Ok tt, db)
    end.
Proof.
  unfold process_initial_billing, process_initial_billing_body, try_except.
  destruct (initial_select env) as [e |]; [reflexivity |]. run_m.
  destruct (subscriptions db !! subscription_id) as [s |]; [| reflexivity].
  destruct (sub_trial_ends_at s); [reflexivity |].
  unfold mbind, M_bind, bind, billing_attempt. rewrite attempt_run. reflexivity.
Qed.

(** X8: [process_initial_billing] always returns.  It leaves the session
    untouched when its lookup raises, when the subscription does not exist
    and when the subscription has a trial; for a subscription without trial
    it makes exactly one billing attempt. *)
Theorem process_initial_billing_spec env db subscription_id :
  let out := process_initial_billing env db subscription_id in
  out.1 = Ok tt
  /\ (initial_select env <> None -> out.2 = db)
  /\ (subscriptions db !! subscription_id = None -> out.2 = db)
  /\ (forall s t,
        subscriptions db !! subscription_id = Some s ->
        sub_trial_ends_at s = Some t -> out.2 = db)
  /\ (forall s,
        initial_select env = None ->
        subscriptions db !! subscription_id = Some s ->
        sub_trial_ends_at s = None ->
        out.2 = (_process_subscription_billing (initial_attempt env) db s).2).
Proof.
  cbv zeta. rewrite process_initial_billing_cases.
  destruct (initial_select env) as [e |] eqn:Hsel;
    destruct (subscriptions db !! subscription_id) as [s |] eqn:Hs;
    try destruct (sub_trial_ends_at s) as [t |] eqn:Ht;
    (split; [reflexivity |]);
    (split; [intros H | split; [intros H | split; [intros s0 t0 H1 H2 | intros s0 H0 H1 H2]]]);
    simplify_eq; try reflexivity; congruence.
Qed.

Lemma process_initial_billing_spec_witness :
  (process_initial_billing (initial_with draw_approve) sample_db 1).2
  = (_process_subscription_billing (attempt_with draw_approve) sample_db
       (sample_subscription 1)).2.
Proof.
  destruct (process_initial_billing_spec (initial_with draw_approve) sample_db 1)
    as (_ & _ & _ & _ & H).
  apply (H (sample_subscription 1)); reflexivity.
Defined.

(** X9: creation followed by the initial billing task.  A subscription
    created with a trial is not billed by the task.  A subscription
    created for a plan read from the database always has a trial, a
    request without trial being refused, so the task that the route
    schedules after the creation bills nothing and leaves the session as
    it is.  Only a subscription created without trial, for a plan that
    holds the enum member, is billed by the task, once. *)
Theorem create_then_initial_billing cenv ienv db subscription_data sub db' :
  create_subscription cenv db subscription_data = (Ok sub, db') ->
  let task := process_initial_billing ienv db' (sub_id sub) in
  (sub_trial_ends_at sub <> None -> task = (Ok tt, db'))
  /\ (forall cycle : string,
        plan_billing_cycle (sub_plan sub) = Loaded cycle ->
        sub_trial_ends_at sub = Some (sub_next_billing_date sub)
        /\ task = (Ok tt, db'))
  /\ (sub_trial_ends_at sub = None ->
      (exists c, plan_billing_cycle (sub_plan sub) = Member c)
      /\ (initial_select ienv = None ->
          task.2 = (_process_subscription_billing (initial_attempt ienv) db' sub).2)).
Proof.
  intros Hok. cbv zeta.
  pose proof (create_subscription_ok _ _ _ _ _ Hok) as (plan & Hplan & Hsub & Hdb).
  pose proof (new_subscription_fields _ _ _ _ Hsub) as (Hid & _ & _ & _ & _ & _ & Hpl).
  pose proof (new_subscription_dates _ _ _ _ Hsub) as (Hpos & Hneg).
  assert (subscriptions db' !! sub_id sub = Some sub) as Hstored.
  { rewrite Hdb. simpl. apply lookup_insert_eq. }
  assert (sub_trial_ends_at sub <> None ->
          process_initial_billing ienv db' (sub_id sub) = (Ok tt, db')) as Htrial.
  { intros Hte. rewrite process_initial_billing_cases, Hstored.
    destruct (initial_select ienv); [reflexivity |].
    destruct (sub_trial_ends_at sub); [reflexivity | contradiction]. }
  split; [exact Htrial |]. split.
  - intros cycle Hcycle.
    destruct (decide (or_int (sc_trial_days_override subscription_data)
                        (plan_trial_days plan) > 0)) as [H | H].
    + destruct (Hpos H) as (Hte & Hnbd). rewrite Hnbd.
      split; [exact Hte |]. apply Htrial. rewrite Hte. discriminate.
    + destruct (Hneg ltac:(lia)) as (_ & c & Hc & _). congruence.
  - intros Hnone. split.
    + destruct (decide (or_int (sc_trial_days_override subscription_data)
                          (plan_trial_days plan) > 0)) as [H | H].
      * destruct (Hpos H) as (Hte & _). congruence.
      * destruct (Hneg ltac:(lia)) as (_ & c & Hc & _). exists c. congruence.
    + intros Hsel. rewrite process_initial_billing_cases, Hsel, Hstored, Hnone.
      reflexivity.
Qed.

Lemma create_then_initial_billing_witness :
  exists sub db',
    create_subscription create_ok sample_db_plans (create_request_on 1 None) = (Ok sub, db')
    /\ sub_trial_ends_at sub = Some (jan20 + timedelta_days 14)
    /\ process_initial_billing (initial_with draw_approve) db' (sub_id sub) = (Ok tt, db').
Proof.
  eexists _, _. split; [reflexivity |].
  destruct (create_then_initial_billing create_ok (initial_with draw_approve) sample_db_plans
              (create_request_on 1 None) _ _ eq_refl) as (_ & H & _).
  destruct (H "monthly" eq_refl) as (H1 & H2).
  split; [exact H1 | exact H2].
Defined.

(** ** cancel_subscription and the billing cycle *)

(** X10: after [cancel_subscription] has returned [True], the cancelled
    subscription is never selected by the billing cycle, whatever the day:
    the due subscriptions are the due subscriptions of before under the
    other ids.  The other subscriptions, the plans and the billing history
    are untouched. *)
Theorem cancelled_is_never_due env db subscription_id db' :
  cancel_subscription env db subscription_id = (Ok true, db') ->
  (forall k, k <> subscription_id -> subscriptions db' !! k = subscriptions db !! k)
  /\ subscription_plans db' = subscription_plans db
  /\ billing_history db' = billing_history db
  /\ forall today s,
       s ∈ select_due today db'
       <-> (exists k, k <> subscription_id /\ subscriptions db !! k = Some s)
           /\ due_for_billing today s = true.
Proof.
  rewrite cancel_subscription_cases.
  destruct (cancel_select env); [discriminate |].
  destruct (subscriptions db !! subscription_id) as [s0 |] eqn:Hs0; [| discriminate].
  destruct (cancel_commit env); [discriminate |].
  intros [= <-]. cbn [subscriptions subscription_plans billing_history].
  split; [intros k Hk; apply lookup_insert_ne; congruence |].
  do 2 (split; [reflexivity |]).
  intros today s. rewrite elem_of_select_due. cbn [subscriptions].
  split.
  - intros ((k & Hk) & Hdue). split; [| exact Hdue].
    destruct (decide (k = subscription_id)) as [-> | Hne].
    + rewrite lookup_insert_eq in Hk. injection Hk as <-. discriminate Hdue.
    + rewrite lookup_insert_ne in Hk by congruence. eauto.
  - intros ((k & Hne & Hk) & Hdue). split; [| exact Hdue].
    exists k. rewrite lookup_insert_ne by congruence. exact Hk.
Qed.

Lemma cancelled_is_never_due_witness :
  exists db',
    cancel_subscription cancel_ok sample_db 1 = (Ok true, db')
    /\ forall s, s ∈ select_due (date_of jan20) db' -> False.
Proof.
  eexists. split; [reflexivity |].
  intros s Hs.
  destruct (cancelled_is_never_due cancel_ok sample_db 1 _ eq_refl) as (_ & _ & _ & H).
  apply H in Hs as ((k & Hne & Hk) & _).
  simpl in Hk. apply lookup_singleton_Some in Hk as [Hk _]. congruence.
Defined.

(** ** get_job_status *)

Lemma get_job_status_cases sel (billing_jobs : gmap string BillingJob) id :
  get_job_status sel billing_jobs id
  = Ok match sel, billing_jobs !! id with
       | None, Some job =>
           Some {| js_job_id := job_id job;
                   js_status := job_status job;
                   js_total_subscriptions := total_subscriptions job;
                   js_processed := processed_count job;
                   js_successful := success_count job;
                   js_failed := failure_count job;
                   js_started_at := job_started_at job;
                   js_completed_at := job_completed_at job;
                   js_error_details := error_details job |}
       | _, _ => None
       end.
Proof.
  unfold get_job_status, get_job_status_body, try_except.
  destruct sel as [e |]; [reflexivity |]. run_m.
  destruct (billing_jobs !! id); reflexivity.
Qed.

(** X11: [get_job_status] never raises; it returns [None] exactly when no
    job has that id or the lookup raises.  The route function then raises
    [HTTPException(404, "Job not found")], which the 404 handler of the
    application turns into a 500 for the client: an unknown job and a
    failing database are both answered 500, and no request is answered
    404.  Otherwise the client receives the counters of the job row; for a
    row written by a billing cycle they have [processed <=
    total_subscriptions], [successful = processed] and [failed = 0]. *)
Theorem job_status_spec sel (billing_jobs : gmap string BillingJob) id :
  let raised := get_billing_job_status_route sel billing_jobs id in
  (exists r, get_job_status sel billing_jobs id = Ok r)
  /\ (get_job_status sel billing_jobs id = Ok None
      <-> billing_jobs !! id = None \/ sel <> None)
  /\ (get_job_status sel billing_jobs id = Ok None
      <-> raised = HTTPException 404 "Job not found")
  /\ (get_job_status sel billing_jobs id = Ok None
      <-> sent_to_client raised = HTTPException 500 "Internal Server Error")
  /\ (forall code detail,
        sent_to_client raised = HTTPException code detail -> code = 500)
  /\ (forall job,
        sel = None -> billing_jobs !! id = Some job ->
        exists d,
          sent_to_client raised = Respond d
          /\ js_status d = job_status job
          /\ js_total_subscriptions d = total_subscriptions job
          /\ js_processed d = processed_count job
          /\ js_successful d = success_count job
          /\ js_failed d = failure_count job
          /\ forall env db,
               job ∈ cs_rows (process_billing_cycle_async env id db).2 ->
               js_processed d <= js_total_subscriptions d
               /\ js_successful d = js_processed d
               /\ js_failed d = 0).
Proof.
  cbv zeta. unfold get_billing_job_status_route. rewrite get_job_status_cases.
  destruct sel as [e |]; [| destruct (billing_jobs !! id) as [job |] eqn:Hjob].
  - split; [eauto |]. split; [split; [right; discriminate | reflexivity] |].
    split; [split; reflexivity |]. split; [split; reflexivity |].
    split; [| discriminate]. cbn. intros code detail [= <- _]. reflexivity.
  - split; [eauto |]. split; [split; [discriminate | intros [H | H]; congruence] |].
    split; [split; discriminate |]. split; [split; discriminate |].
    split; [discriminate |].
    intros job' _ [= <-]. eexists. split; [reflexivity |].
    do 5 (split; [reflexivity |]). cbn.
    intros env db Hrow.
    destruct (billing_cycle_no_failure_counted env id db job Hrow) as (H1 & H2).
    destruct (billing_cycle_rows_shape env id db) as (p & tail & Hrows & Hp & Htail).
    rewrite Hrows in Hrow. rewrite Forall_forall in Hp.
    split; [| auto].
    apply elem_of_app in Hrow as [Hrow | Hrow].
    + destruct (Hp job Hrow) as (_ & _ & _ & ?). lia.
    + destruct Htail as [-> | [-> | (e & row & Hin & ->)]].
      * by apply elem_of_nil in Hrow.
      * apply list_elem_of_singleton in Hrow as ->. simpl. lia.
      * apply list_elem_of_singleton in Hrow as ->.
        destruct (Hp row Hin) as (_ & _ & _ & ?). simpl. lia.
  - split; [eauto |]. split; [split; [left; reflexivity | reflexivity] |].
    split; [split; reflexivity |]. split; [split; reflexivity |].
    split; [| discriminate]. cbn. intros code detail [= <- _]. reflexivity.
Qed.

(** ** The routes *)

(** X12: the cancel route.  The route function returns the
    [SuccessResponse] exactly when the subscription exists and the database
    answers, and the subscription is then cancelled; in every other case, a
    failure of the database included, it raises [HTTPException(404,
    "Subscription not found")] with the session unchanged, and never a 500
    of its own.  The 404 handler of the application turns that exception
    into a 500 for the client: a cancellation is answered with the
    [SuccessResponse] or with status 500, never with 404. *)
Theorem cancel_subscription_route_spec env timestamp db subscription_id :
  let out := cancel_subscription_route env timestamp db subscription_id in
  (forall code detail,
     out.1 = HTTPException code detail ->
     code = 404 /\ detail = "Subscription not found" /\ out.2 = db
     /\ (subscriptions db !! subscription_id = None
         \/ cancel_select env <> None \/ cancel_commit env <> None)
     /\ sent_to_client out.1 = HTTPException 500 "Internal Server Error")
  /\ (forall body,
        out.1 = Respond body ->
        sent_to_client out.1 = Respond body
        /\ body = {| sr_message := "Subscription cancelled successfully";
                     sr_timestamp := timestamp |}
        /\ cancel_select env = None /\ cancel_commit env = None
        /\ exists s,
             subscriptions db !! subscription_id = Some s
             /\ subscriptions out.2 !! subscription_id
                = Some (set_sub_cancelled_at (Some (cancel_now env))
                          (set_sub_status CANCELLED s)))
  /\ (forall code detail, sent_to_client out.1 = HTTPException code detail -> code = 500).
Proof.
  cbv zeta. unfold cancel_subscription_route. rewrite cancel_subscription_cases.
  destruct (cancel_select env) as [e1 |] eqn:Hsel; cbn.
  { split; [| split; [discriminate |]].
    - intros code detail [= <- <-]. repeat split. right; left; discriminate.
    - intros code detail [= <- _]. reflexivity. }
  destruct (subscriptions db !! subscription_id) as [s |] eqn:Hs; cbn.
  2: { split; [| split; [discriminate |]].
       - intros code detail [= <- <-]. repeat split. left; reflexivity.
       - intros code detail [= <- _]. reflexivity. }
  destruct (cancel_commit env) as [e2 |] eqn:Hcom; cbn.
  { split; [| split; [discriminate |]].
    - intros code detail [= <- <-]. repeat split. right; right; discriminate.
    - intros code detail [= <- _]. reflexivity. }
  split; [discriminate |]. split; [| discriminate]. intros body [= <-].
  do 4 (split; [reflexivity |]). exists s. split; [reflexivity |].
  apply lookup_insert_eq.
Qed.

Lemma cancel_subscription_route_spec_witness :
  (cancel_subscription_route cancel_ok jan20 sample_db 9).1
  = HTTPException 404 "Subscription not found"
  /\ sent_to_client (cancel_subscription_route cancel_ok jan20 sample_db 9).1
     = HTTPException 500 "Internal Server Error".
Proof.
  split; [reflexivity |].
  destruct (cancel_subscription_route_spec cancel_ok jan20 sample_db 9) as (H & _).
  destruct (H 404 "Subscription not found" eq_refl) as (_ & _ & _ & _ & H5).
  exact H5.
Defined.

(** X13: the creation route.  For a missing user the route function raises
    [HTTPException(404, "User not found")] and for a missing plan
    [HTTPException(404, "Subscription plan not found")], with nothing
    stored and no task scheduled; it raises a 500 when a lookup of its own
    raises or when the service raises; it returns a subscription exactly
    when the service returns it, and the initial billing task is then
    scheduled for its id.  A request without trial on a plan read from
    the database is answered 500 although every round trip succeeds, the
    service raising [AttributeError].  Whatever the route function raises,
    the client receives status 500: the 404 handler of the application
    turns the two 404 into 500. *)
Theorem create_subscription_route_spec env (users : gmap Z User) db subscription :
  let out := create_subscription_route env users db subscription in
  (route_select_user env = None -> users !! sc_user_id subscription = None ->
   out = (HTTPException 404 "User not found", None, db))
  /\ (route_select_user env = None -> is_Some (users !! sc_user_id subscription) ->
      route_select_plan env = None ->
      subscription_plans db !! sc_plan_id subscription = None ->
      out = (HTTPException 404 "Subscription plan not found", None, db))
  /\ (forall detail, out.1.1 = HTTPException 500 detail ->
        route_select_user env <> None \/ route_select_plan env <> None
        \/ exists e, (create_subscription (route_create env) db subscription).1 = Raise e)
  /\ (forall plan cycle,
        route_select_user env = None -> is_Some (users !! sc_user_id subscription) ->
        route_select_plan env = None -> create_select (route_create env) = None ->
        subscription_plans db !! sc_plan_id subscription = Some plan ->
        plan_billing_cycle plan = Loaded cycle ->
        or_int (sc_trial_days_override subscription) (plan_trial_days plan) <= 0 ->
        out = (HTTPException 500 "Internal server error", None, db))
  /\ (forall code detail,
        out.1.1 = HTTPException code detail ->
        out.1.2 = None
        /\ exists detail', sent_to_client out.1.1 = HTTPException 500 detail')
  /\ (forall sub, out.1.1 = Respond sub ->
        out.1.2 = Some (sub_id sub)
        /\ is_Some (users !! sc_user_id subscription)
        /\ create_subscription (route_create env) db subscription = (Ok sub, out.2)).
Proof.
  cbv zeta. unfold create_subscription_route.
  destruct (route_select_user env) as [e1 |] eqn:H1.
  { repeat split; try discriminate; try congruence; try (intros; left; discriminate).
    injection H as <- _. eexists. reflexivity. }
  destruct (users !! sc_user_id subscription) as [u |] eqn:Hu.
  2: { split; [reflexivity |]. split; [intros _ [? ?]; discriminate |].
       split; [discriminate |]. split; [intros ? ? _ [? ?]; discriminate |].
       split; [| discriminate].
       intros code detail [= <- _]. split; [reflexivity |]. eexists. reflexivity. }
  destruct (route_select_plan env) as [e2 |] eqn:H2.
  { repeat split; try discriminate; try congruence; try (intros; right; left; discriminate).
    injection H as <- _. eexists. reflexivity. }
  destruct (subscription_plans db !! sc_plan_id subscription) as [plan |] eqn:Hplan.
  2: { split; [discriminate |]. split; [reflexivity |].
       split; [discriminate |]. split; [discriminate |].
       split; [| discriminate].
       intros code detail [= <- _]. split; [reflexivity |]. eexists. reflexivity. }
  split; [discriminate |]. split; [discriminate |].
  split; [| split; [| split]].
  - intros detail Hout. right. right.
    destruct (create_subscription (route_create env) db subscription) as [[sub | e] db'];
      [discriminate | eauto].
  - intros plan' cycle _ _ _ Hsel [= <-] Hcycle Hdays.
    rewrite create_subscription_cases, Hsel, Hplan, new_subscription_no_trial, Hcycle
      by exact Hdays.
    reflexivity.
  - intros code detail Hout.
    destruct (create_subscription (route_create env) db subscription) as [[sub | e] db'];
      [discriminate |].
    cbn in *. injection Hout as <- _. split; [reflexivity |]. eexists. reflexivity.
  - intros sub Hout.
    destruct (create_subscription (route_create env) db subscription) as [[sub' | e] db'];
      [| discriminate].
    cbn in *. injection Hout as <-. split; [reflexivity |]. split; [eauto | reflexivity].
Qed.

(** ** The session of a billing cycle *)

Lemma NoDup_map_filter {A B} (g : A -> B) (f : A -> bool) (l : list A) :
  NoDup (map g l) -> NoDup (map g (List.filter f l)).
Proof.
  induction l as [| a l IH]; simpl; [auto |].
  intros [Hnotin Hnd]%NoDup_cons. destruct (f a); simpl; [| auto].
  apply NoDup_cons. split; [| auto].
  intros Hin. apply Hnotin.
  apply list_elem_of_fmap in Hin as (x & -> & Hx).
  apply list_elem_of_fmap. exists x. split; [reflexivity |].
  apply list_elem_of_In. apply list_elem_of_In, filter_In in Hx. tauto.
Qed.

Lemma select_due_NoDup today db :
  session_wf db -> NoDup (map sub_id (select_due today db)).
Proof.
  intros Hwf. unfold select_due. apply NoDup_map_filter.
  rewrite map_map.
  rewrite (map_ext_in _ fst).
  - apply NoDup_fst_map_to_list.
  - intros [k s] Hin. simpl. apply Hwf.
    apply elem_of_map_to_list, list_elem_of_In. exact Hin.
Qed.



(** X15: a billing cycle leaves alone every subscription that is not due:
    in a session where the rows are stored under their ids, a row that the
    query does not select is the same after the run, whatever the payments
    and the failures of the database; the plans are untouched too. *)
Theorem billing_cycle_frame env id db k s :
  session_wf db ->
  subscriptions db !! k = Some s ->
  due_for_billing (date_of (cycle_today env)) s = false ->
  let db' := cs_db (process_billing_cycle_async env id db).2 in
  subscriptions db' !! k = Some s
  /\ subscription_plans db' = subscription_plans db.
Proof.
  intros Hwf Hk Hnot. cbv zeta.
  destruct (billing_cycle_session env id db) as (ran & Hpre & Hdb & _).
  rewrite Hdb, run_batches_plans. split; [| reflexivity].
  rewrite run_batches_frame; [exact Hk |].
  intros s' Hs' Heq.
  pose proof (ran_batches_due _ _ _ Hpre Hs') as Hdue.
  apply elem_of_select_due in Hdue as ((k' & Hk') & Hdue).
  pose proof (Hwf _ _ Hk') as Hid. rewrite Heq in Hid. subst k'.
  rewrite Hk in Hk'. injection Hk' as <-. congruence.
Qed.

Lemma sample_db_paused_wf : session_wf sample_db_paused.
Proof.
  intros k s Hk. simpl in Hk.
  apply lookup_insert_Some in Hk as [[<- <-] | [_ Hk]]; [reflexivity |].
  apply lookup_singleton_Some in Hk as [<- <-]. reflexivity.
Qed.

Lemma billing_cycle_frame_witness :
  subscriptions
    (cs_db (process_billing_cycle_async (cycle_with draw_approve) "job-1"
              sample_db_paused).2) !! 1
  = Some (set_sub_status PAUSED (sample_subscription 1)).
Proof.
  apply (billing_cycle_frame (cycle_with draw_approve) "job-1" sample_db_paused 1
           (set_sub_status PAUSED (sample_subscription 1)) sample_db_paused_wf);
    reflexivity.
Defined.

(** X16: in a run whose round trips all succeed, on a session where the
    rows are stored under their ids, what becomes of a due subscription
    depends on its own payment and its own plan only, whatever happens to
    the other members of its batch and whatever the order in which the
    payments complete.  When its payment fails it is [PAST_DUE], nothing
    else changed.  When its payment succeeds and its plan was read from
    the database, it is exactly as before the run, still due.  When its
    payment succeeds and its plan holds the enum member, it is [ACTIVE]
    with its next billing date one cycle later, unless that date
    overflows, and then it is as before the run. *)
Theorem billing_cycle_outcome env id db s :
  session_wf db ->
  (forall p, cycle_io env p = None) ->
  s ∈ select_due (date_of (cycle_today env)) db ->
  exists s',
    subscriptions (cs_db (process_billing_cycle_async env id db).2) !! sub_id s = Some s'
    /\ if success (attempt_payment (cycle_attempt env (sub_id s)) s)
       then match plan_billing_cycle (sub_plan s) with
            | Loaded _ => s' = s
            | Member c =>
                let next_billing_date :=
                  sub_next_billing_date s + timedelta_days (cycle_days c) in
                if decide (datetime_min <= next_billing_date <= datetime_max)
                then s' = set_sub_status ACTIVE
                            (set_sub_next_billing_date next_billing_date s)
                else s' = s
            end
       else s' = set_sub_status PAST_DUE s.
Proof.
  intros Hwf Hio Hs.
  destruct (billing_cycle_session env id db) as (ran & _ & Hdb & Hall).
  rewrite Hdb, (Hall Hio).
  rewrite run_batches_outcome
    by (rewrite batches_concat; first [apply select_due_NoDup, Hwf | exact Hs]).
  eexists. split; [reflexivity |]. unfold billed, advanced_date.
  destruct (success _); [| reflexivity].
  destruct (plan_billing_cycle (sub_plan s)) as [c | v]; cbn; [| reflexivity].
  rewrite calculate_next_billing_date_value. unfold datetime_add.
  case_decide; reflexivity.
Qed.

Lemma billing_cycle_outcome_witness :
  subscriptions
    (cs_db (process_billing_cycle_async (cycle_with draw_approve) "job-1"
              sample_db_paused).2) !! 2
  = Some (sample_subscription 2).
Proof.
  destruct (billing_cycle_outcome (cycle_with draw_approve) "job-1" sample_db_paused
              (sample_subscription 2) sample_db_paused_wf (fun _ => eq_refl))
    as (s' & Hs' & Hout).
  - apply elem_of_select_due. split; [| reflexivity].
    exists 2. reflexivity.
  - cbn in Hout. subst s'. exact Hs'.
Defined.

(** X18: [process_billing_cycle_async] returns normally exactly when its
    handler does; the job row it leaves, if it has written one, is then
    completed or failed.  When an exception leaves the function it is one
    raised by a round trip of the handler, and every version of the job row
    is still running. *)
Theorem billing_cycle_return env id db :
  let out := process_billing_cycle_async env id db in
  (out.1 = Ok tt ->
   cs_rows out.2 = [] \/ exists j, final_job out = Some j /\ terminal j)
  /\ (forall e, out.1 = Raise e ->
        (cycle_io env UpdateFailed = Some e
         \/ cycle_io env UpdateFailed = None /\ cycle_io env CommitFailed = Some e)
        /\ Forall (fun j => job_status j = "running") (cs_rows out.2)).
Proof.
  cbv zeta. unfold final_job, process_billing_cycle_async, try_except.
  pose proof (billing_cycle_body_run env id db) as Hbody. cbv zeta in Hbody.
  destruct (billing_cycle_body env _) as [[[] | e0] st']; cbn [fst snd].
  - split; [| discriminate]. intros _. right. rewrite Hbody, last_snoc.
    eexists. split; [reflexivity |]. left. reflexivity.
  - destruct Hbody as (_ & [rest Hpre]).
    assert (Forall (fun j => job_status j = "running") (cs_rows st')) as Hrun.
    { pose proof (running_rows_running env id
                    (length (select_due (date_of (cycle_today env)) db))) as Hall.
      rewrite Hpre in Hall. apply Forall_app in Hall as [Hall _].
      eapply Forall_impl; [exact Hall |]. intros j (H & _). exact H. }
    unfold billing_cycle_handler. rewrite bind_run.
    destruct (cycle_io env UpdateFailed) as [e1 |].
    { cbn. split; [discriminate |]. intros e [= <-]. split; [auto | exact Hrun]. }
    cbn [round_trip]. unfold mret, M_ret, ret. rewrite bind_run.
    destruct (cycle_io env CommitFailed) as [e2 |].
    { cbn. split; [discriminate |]. intros e [= <-]. split; [auto | exact Hrun]. }
    cbn. split; [| discriminate]. intros _. unfold mark_failed.
    destruct (last (cs_rows st')) as [row |] eqn:Hlast.
    + right. rewrite last_snoc. eexists. split; [reflexivity |]. right. reflexivity.
    + left. apply last_None in Hlast. exact Hlast.
Qed.

(** ** get_masked_config *)

Lemma mask_keys_lookup (keys : list string) (config : gmap string ConfigValue) key :
  foldl (fun config key =>
           if truthy (config !! key) then <[key := masked]> config else config)
        config keys !! key
  = if bool_decide (key ∈ keys) && truthy (config !! key)
    then Some masked else config !! key.
Proof.
  revert config. induction keys as [| k keys IH]; intros config; [reflexivity |].
  cbn [foldl]. rewrite IH.
  destruct (decide (key = k)) as [-> | Hne].
  - rewrite (bool_decide_eq_true_2 (k ∈ k :: keys)) by (apply elem_of_cons; auto).
    destruct (truthy (config !! k)) eqn:Ht.
    + rewrite lookup_insert_eq. simpl. rewrite andb_true_r.
      destruct (bool_decide (k ∈ keys)); reflexivity.
    + rewrite Ht, andb_false_r. reflexivity.
  - assert ((if truthy (config !! k) then <[k := masked]> config else config) !! key
            = config !! key) as ->.
    { destruct (truthy (config !! k)); [apply lookup_insert_ne; congruence | reflexivity]. }
    rewrite (bool_decide_ext (key ∈ k :: keys) (key ∈ keys))
      by (rewrite elem_of_cons; tauto).
    reflexivity.
Qed.

(** X19: [get_masked_config] replaces by ["***MASKED***"] the value of each
    sensitive key that is set to a non-empty value and changes nothing
    else: an empty or absent sensitive value stays as it is, every other
    key keeps its value, no key is added or removed; masking a masked
    configuration changes nothing. *)
Theorem get_masked_config_spec (model_dump : gmap string ConfigValue) :
  (forall key, key ∈ sensitive_keys ->
     get_masked_config model_dump !! key
     = if truthy (model_dump !! key) then Some (CfgStr "***MASKED***")
       else model_dump !! key)
  /\ (forall key, key ∉ sensitive_keys ->
        get_masked_config model_dump !! key = model_dump !! key)
  /\ dom (get_masked_config model_dump) = dom model_dump
  /\ get_masked_config (get_masked_config model_dump) = get_masked_config model_dump.
Proof.
  unfold get_masked_config. split; [| split; [| split]].
  - intros key Hkey. rewrite mask_keys_lookup, bool_decide_eq_true_2 by exact Hkey.
    reflexivity.
  - intros key Hkey. rewrite mask_keys_lookup, bool_decide_eq_false_2 by exact Hkey.
    reflexivity.
  - apply set_eq. intros key. rewrite !elem_of_dom, mask_keys_lookup.
    destruct (model_dump !! key) as [v |] eqn:Hv.
    + split; intros _; [eauto |]. destruct (_ && _); eauto.
    + unfold truthy. rewrite andb_false_r. reflexivity.
  - apply map_eq. intros key. rewrite !mask_keys_lookup.
    destruct (bool_decide (key ∈ sensitive_keys)); simpl; [| reflexivity].
    destruct (truthy (model_dump !! key)) eqn:Ht; [reflexivity |]. rewrite Ht. reflexivity.
Qed.

(** ** create_user *)

Lemma elem_of_users_with_email email (users : gmap Z User) u :
  u ∈ users_with_email email users
  <-> (exists k, users !! k = Some u) /\ usr_email u = email.
Proof.
  unfold users_with_email. rewrite list_elem_of_In, filter_In, <- list_elem_of_In.
  rewrite list_elem_of_fmap, bool_decide_eq_true.
  split.
  - intros ((kv & -> & Hkv) & He). destruct kv as [k v].
    apply elem_of_map_to_list in Hkv. eauto.
  - intros ((k & Hk) & He). split; [| exact He].
    exists (k, u). split; [reflexivity |]. apply elem_of_map_to_list. exact Hk.
Qed.

Lemma filter_email_at_most_one email (l : list (Z * User)) :
  NoDup (map fst l) ->
  (forall k1 k2 u1 u2, (k1, u1) ∈ l -> (k2, u2) ∈ l ->
                       usr_email u1 = usr_email u2 -> k1 = k2) ->
  (length (List.filter (fun u => bool_decide (usr_email u = email)) (map snd l)) <= 1)%nat.
Proof.
  induction l as [| [k u] l IH]; simpl; [lia |].
  intros [Hnotin Hnd]%NoDup_cons Huniq.
  assert (length (List.filter (fun u => bool_decide (usr_email u = email)) (map snd l)) <= 1)%nat
    as Hl by (apply IH; [exact Hnd | intros; eapply Huniq; set_solver]).
  destruct (bool_decide (usr_email u = email)) eqn:Hu; [| exact Hl].
  apply bool_decide_eq_true in Hu. simpl.
  destruct (List.filter _ (map snd l)) as [| u' rest] eqn:Hf; [simpl; lia |].
  exfalso. assert (In u' (List.filter (fun u => bool_decide (usr_email u = email))
                            (map snd l))) as Hin by (rewrite Hf; left; reflexivity).
  apply filter_In in Hin as [Hin He]. apply bool_decide_eq_true in He.
  apply in_map_iff in Hin as ([k' u''] & Heq & Hin). simpl in Heq. subst u''.
  apply list_elem_of_In in Hin.
  assert (k = k') as <-.
  { apply (Huniq k k' u u'); [apply elem_of_cons; auto | apply elem_of_cons; auto |].
    congruence. }
  apply Hnotin. apply list_elem_of_fmap. exists (k, u'). split; [reflexivity | exact Hin].
Qed.

Lemma users_with_email_at_most_one email (users : gmap Z User) :
  unique_emails users -> (length (users_with_email email users) <= 1)%nat.
Proof.
  intros Huniq. unfold users_with_email. apply filter_email_at_most_one.
  - apply NoDup_fst_map_to_list.
  - intros k1 k2 u1 u2 H1%elem_of_map_to_list H2%elem_of_map_to_list.
    apply Huniq; assumption.
Qed.

(** X20: on a table whose emails are unique, with a fresh primary key,
    [create_user] answers 400 "Email already registered" exactly when the
    lookup returns and a user has the email of the request, and the table
    is then unchanged; a body is answered only for an email no user has,
    and the user is stored active under the new key with the email and the
    name of the request; the emails are unique afterwards in every case. *)
Theorem create_user_spec env (users : gmap Z User) user :
  unique_emails users ->
  users !! new_user_id env = None ->
  let out := create_user env users user in
  (new_user_select env = None ->
   (out = (HTTPException 400 "Email already registered", users)
    <-> exists k u, users !! k = Some u /\ usr_email u = uc_email user))
  /\ (forall u, out.1 = Respond u ->
        out.2 = <[new_user_id env := u]> users
        /\ usr_email u = uc_email user /\ usr_name u = uc_name user
        /\ usr_is_active u = true
        /\ forall k u', users !! k = Some u' -> usr_email u' <> uc_email user)
  /\ unique_emails out.2.
Proof.
  intros Huniq Hfresh. cbv zeta. unfold create_user.
  pose proof (users_with_email_at_most_one (uc_email user) users Huniq) as Hlen.
  pose proof (elem_of_users_with_email (uc_email user) users) as Hin.
  destruct (new_user_select env) as [e |].
  { split; [discriminate |]. split; [discriminate | exact Huniq]. }
  destruct (users_with_email (uc_email user) users) as [| u0 [| u1 rest]];
    [| | simpl in Hlen; lia]; cbn [scalar_one_or_none].
  - assert (forall k u', users !! k = Some u' -> usr_email u' <> uc_email user) as Hnone.
    { intros k u' Hk He. apply (elem_of_nil u'). apply Hin. eauto. }
    assert (unique_emails
              (<[new_user_id env :=
                   {| usr_id := new_user_id env; usr_email := uc_email user;
                      usr_name := uc_name user; usr_is_active := true;
                      usr_created_at := new_user_now env;
                      usr_updated_at := new_user_now env |}]> users)) as Huniq'.
    { intros k1 k2 u1 u2 H1 H2 He.
      apply lookup_insert_Some in H1 as [[<- <-] | [Hne1 H1]];
        apply lookup_insert_Some in H2 as [[<- <-] | [Hne2 H2]].
      - reflexivity.
      - exfalso. apply (Hnone _ _ H2). simpl in He. congruence.
      - exfalso. apply (Hnone _ _ H1). simpl in He. congruence.
      - apply (Huniq _ _ _ _ H1 H2 He). }
    split.
    { intros _. split.
      - destruct (new_user_commit env); [discriminate |].
        destruct (new_user_refresh env); discriminate.
      - intros (k & u & Hk & He). exfalso. apply (Hnone _ _ Hk He). }
    destruct (new_user_commit env) as [e |].
    { split; [discriminate | exact Huniq]. }
    destruct (new_user_refresh env) as [e |].
    { split; [discriminate | exact Huniq']. }
    split; [| exact Huniq'].
    intros u [= <-]. cbn. repeat split. exact Hnone.
  - split; [| split; [discriminate | exact Huniq]].
    intros _. split; [| reflexivity].
    intros _. assert (u0 ∈ [u0]) as H0 by (apply elem_of_cons; auto).
    apply Hin in H0 as ((k & Hk) & He). eauto.
Qed.

Lemma create_user_spec_witness :
  exists u,
    (create_user {| new_user_id := 1; new_user_now := jan20; new_user_select := None;
                    new_user_commit := None; new_user_refresh := None |}
                 ∅ {| uc_email := "ada@example.com"; uc_name := "Ada" |}).1 = Respond u
    /\ usr_email u = "ada@example.com" /\ usr_is_active u = true.
Proof.
  eexists. split; [reflexivity |].
  destruct (create_user_spec
              {| new_user_id := 1; new_user_now := jan20; new_user_select := None;
                 new_user_commit := None; new_user_refresh := None |}
              ∅ {| uc_email := "ada@example.com"; uc_name := "Ada" |})
    as (_ & H & _).
  - intros k1 k2 u1 u2 H1. rewrite lookup_empty in H1. discriminate H1.
  - apply lookup_empty.
  - destruct (H _ eq_refl) as (_ & H1 & _ & H2 & _). split; assumption.
Defined.

(** ** The migration *)

Lemma run_migration_steps_spec env steps :
  forall acc results,
    run_migration_steps env steps acc = Ok results ->
    exists ran,
      results = acc ++ ran
      /\ map fst ran = take (length ran) steps
      /\ (forall name r, (name, r) ∈ ran -> step_result env name = Ok r)
      /\ (forall i kv, ran !! i = Some kv -> (S i < length ran)%nat ->
                       mr_success kv.2 = true)
      /\ (forallb (fun kv => mr_success kv.2) ran = true -> length ran = length steps)
      /\ (steps <> [] -> ran <> []).
Proof.
  induction steps as [| name steps IH]; intros acc results; simpl.
  - intros [= <-]. exists []. rewrite app_nil_r.
    repeat split; try reflexivity; try congruence.
    + intros name r H. by apply elem_of_nil in H.
    + intros i kv H. discriminate H.
  - destruct (step_result env name) as [r | e] eqn:Hstep; [| discriminate].
    destruct (mr_success r) eqn:Hok; cbn [negb].
    + intros Hrun. apply IH in Hrun as (ran & -> & Hnames & Hres & Hpre & Hall & _).
      exists ((name, r) :: ran). rewrite <- app_assoc. split; [reflexivity |].
      split; [simpl; f_equal; exact Hnames |].
      split; [| split; [| split]].
      * intros name' r' [[= -> ->] | Hin]%elem_of_cons; [exact Hstep | eauto].
      * intros [| i] kv; simpl.
        -- intros [= <-] _. exact Hok.
        -- intros Hi Hlen. apply (Hpre i kv Hi). lia.
      * simpl. rewrite Hok. simpl. intros H. f_equal. auto.
      * discriminate.
    + intros [= <-]. exists [(name, r)].
      split; [reflexivity |]. split; [reflexivity |].
      split; [| split; [| split]].
      * intros name' r' [= -> ->]%list_elem_of_singleton. exact Hstep.
      * intros [| i] kv; simpl; [lia | discriminate].
      * simpl. rewrite Hok. discriminate.
      * discriminate.
Qed.

(** X21: [migrate_all_data] runs the steps in their order and stops at the
    first one that fails.  When it returns, the results are those of the
    steps it ran, under their names and in that order, and every one but
    the last is a success; then either the four steps ran and succeeded,
    and the result of the integrity check follows them, or the last step
    run failed and no integrity check is made. *)
Theorem migrate_all_data_spec env results :
  migrate_all_data env = Ok results ->
  exists ran tail,
    results = ran ++ tail
    /\ ran <> []
    /\ map fst ran = take (length ran) migration_steps
    /\ (forall name r, (name, r) ∈ ran -> step_result env name = Ok r)
    /\ (forall i kv, ran !! i = Some kv -> (S i < length ran)%nat ->
                     mr_success kv.2 = true)
    /\ ((Forall (fun kv => mr_success kv.2 = true) ran
         /\ map fst ran = migration_steps
         /\ exists integrity_check,
              integrity_result env = Ok integrity_check
              /\ tail = [("integrity_check", integrity_check)])
        \/ (tail = []
            /\ exists kv, last ran = Some kv /\ mr_success kv.2 = false)).
Proof.
  unfold migrate_all_data.
  destruct (run_migration_steps env migration_steps []) as [res | e] eqn:Hrun;
    [| discriminate].
  apply run_migration_steps_spec in Hrun as (ran & -> & Hnames & Hres & Hpre & Hall & Hne).
  cbn [app]. specialize (Hne ltac:(discriminate)).
  destruct (forallb (fun kv => mr_success kv.2) ran) eqn:Hsucc.
  - destruct (integrity_result env) as [ic | e]; [| discriminate].
    intros [= <-]. exists ran, [("integrity_check", ic)].
    do 5 (split; [assumption || reflexivity |]).
    left. split; [| split].
    + apply Forall_forall. intros kv Hkv.
      rewrite forallb_forall in Hsucc. apply Hsucc, list_elem_of_In, Hkv.
    + rewrite Hnames, (Hall eq_refl). apply firstn_all.
    + eauto.
  - intros [= <-]. exists ran, []. rewrite app_nil_r.
    do 5 (split; [assumption || reflexivity |]).
    right. split; [reflexivity |].
    destruct (last ran) as [kv |] eqn:Hlast; [| apply last_None in Hlast; contradiction].
    exists kv. split; [reflexivity |].
    destruct (mr_success kv.2) eqn:Hkv; [| reflexivity].
    exfalso. assert (forallb (fun kv => mr_success kv.2) ran = true) as Habs;
      [| congruence].
    apply forallb_forall. intros kv' Hin. apply list_elem_of_In in Hin.
    apply list_elem_of_lookup in Hin as [i Hi].
    destruct (decide (S i < length ran)%nat) as [Hlt | Hge]; [apply (Hpre i kv' Hi Hlt) |].
    apply lookup_lt_Some in Hi as Hlen.
    rewrite last_lookup in Hlast.
    replace (pred (length ran)) with i in Hlast by lia. congruence.
Qed.

Lemma migrate_all_data_spec_witness :
  exists results ran kv,
    migrate_all_data migration_third_fails = Ok results
    /\ results = ran ++ []
    /\ map fst ran = ["users"; "subscription_plans"; "subscriptions"]
    /\ last ran = Some kv /\ mr_success kv.2 = false.
Proof.
  destruct (migrate_all_data_spec migration_third_fails _ eq_refl)
    as (ran & tail & Hres & _ & Hnames & _ & _
        & [(_ & _ & ic & Hic & _) | (-> & kv & Hlast & Hkv)]).
  - discriminate Hic.
  - eexists _, ran, kv. split; [reflexivity |]. split; [exact Hres |].
    split; [| split; assumption].
    apply (f_equal (@length _)) in Hres as Hlen. rewrite app_nil_r in Hlen.
    rewrite Hnames, <- Hlen. reflexivity.
Defined.

Lemma get_counts_Ok count tables counts :
  get_counts count tables = Ok counts ->
  (forall t c, (t, c) ∈ counts <-> t ∈ tables /\ count t = Ok c)
  /\ forall t d, t ∈ tables -> exists c, count t = Ok c /\ dict_get counts t d = c.
Proof.
  revert counts. induction tables as [| t0 tables IH]; intros counts; simpl.
  - intros [= <-]. split.
    + intros t c. split; [intros H; by apply elem_of_nil in H |].
      intros [H _]. by apply elem_of_nil in H.
    + intros t d H. by apply elem_of_nil in H.
  - destruct (count t0) as [c0 | e] eqn:H0; [| discriminate].
    destruct (get_counts count tables) as [counts' | e]; [| discriminate].
    intros [= <-]. destruct (IH counts' eq_refl) as (IH1 & IH2). split.
    + intros t c. rewrite !elem_of_cons, IH1. split.
      * intros [[= -> ->] | [Ht Hc]]; auto.
      * intros [[-> | Ht] Hc]; [left; congruence | auto].
    + intros t d [-> | Ht]%elem_of_cons; simpl.
      * rewrite String.eqb_refl. eauto.
      * destruct (String.eqb t0 t) eqn:Heq; [| apply IH2, Ht].
        apply String.eqb_eq in Heq as ->. eauto.
Qed.

Lemma get_counts_Raise count tables e :
  get_counts count tables = Raise e -> exists t, t ∈ tables /\ count t = Raise e.
Proof.
  induction tables as [| t0 tables IH]; simpl; [discriminate |].
  destruct (count t0) as [c0 | e0] eqn:H0.
  - destruct (get_counts count tables) as [counts' | e']; [discriminate |].
    intros [= <-]. destruct (IH eq_refl) as (t & Ht & Hc).
    exists t. split; [apply elem_of_cons; auto | exact Hc].
  - intros [= <-]. exists t0. split; [apply elem_of_cons; auto | exact H0].
Qed.

Lemma count_mismatches_nil legacy_counts modern_counts :
  count_mismatches legacy_counts modern_counts = []
  <-> forall t c, (t, c) ∈ legacy_counts -> dict_get modern_counts t 0 = c.
Proof.
  unfold count_mismatches. induction legacy_counts as [| [t0 c0] l IH]; simpl.
  - split; [| reflexivity]. intros _ t c H. by apply elem_of_nil in H.
  - split.
    + intros [H0 Hl]%app_eq_nil t c [[= -> ->] | Hin]%elem_of_cons.
      * destruct (c0 =? dict_get modern_counts t0 0) eqn:Heq; [| discriminate H0].
        apply Z.eqb_eq in Heq. congruence.
      * apply IH; assumption.
    + intros H. rewrite (proj2 IH) by (intros t c Hin; apply H, elem_of_cons; auto).
      rewrite app_nil_r.
      rewrite (H t0 c0) by (apply elem_of_cons; auto). rewrite Z.eqb_refl. reflexivity.
Qed.

(** X22: [verify_migration_integrity] never counts a record as migrated,
    and reports success exactly when it reports no error, which is exactly
    when every count query returns, each of the four tables has the same
    count in the legacy and in the modern database, and no subscription is
    without user. *)
Theorem verify_migration_integrity_spec env :
  let r := verify_migration_integrity env in
  mr_records_migrated r = 0
  /\ (mr_success r = true <-> mr_errors r = [])
  /\ (mr_success r = true
      <-> (forall t, t ∈ count_tables ->
             exists c, legacy_count env t = Ok c /\ modern_count env t = Ok c)
          /\ exists n, orphaned_subs env = Ok n /\ n <= 0).
Proof.
  cbv zeta. unfold verify_migration_integrity.
  assert (forall errors : list string, (length errors =? 0)%nat = true <-> errors = [])
    as Hlen by (intros [| x l]; simpl; split; congruence).
  destruct (get_counts (legacy_count env) count_tables) as [lc | e] eqn:Hl.
  2: { cbn. split; [reflexivity |]. split; [split; discriminate |].
       split; [discriminate |]. intros [H _].
       apply get_counts_Raise in Hl as (t & Ht & Hc).
       destruct (H t Ht) as (c & Hc' & _). congruence. }
  destruct (get_counts (modern_count env) count_tables) as [mc | e] eqn:Hm.
  2: { cbn. split; [reflexivity |]. split; [split; discriminate |].
       split; [discriminate |]. intros [H _].
       apply get_counts_Raise in Hm as (t & Ht & Hc).
       destruct (H t Ht) as (c & _ & Hc'). congruence. }
  destruct (get_counts_Ok _ _ _ Hl) as (Hl1 & _).
  destruct (get_counts_Ok _ _ _ Hm) as (_ & Hm2).
  assert (count_mismatches lc mc = []
          <-> forall t, t ∈ count_tables ->
                exists c, legacy_count env t = Ok c /\ modern_count env t = Ok c) as Hmis.
  { rewrite count_mismatches_nil. split.
    - intros H t Ht. destruct (Hm2 t 0 Ht) as (c & Hc & Hd).
      destruct (get_counts_Ok _ _ _ Hl) as (_ & Hl2).
      destruct (Hl2 t 0 Ht) as (c' & Hc' & _).
      exists c'. split; [exact Hc' |].
      rewrite Hc. f_equal. rewrite <- Hd. apply H. apply Hl1. auto.
    - intros H t c [Ht Hc]%Hl1. destruct (H t Ht) as (c' & Hc1 & Hc2).
      destruct (Hm2 t 0 Ht) as (c'' & Hc3 & <-). congruence. }
  unfold _verify_foreign_key_integrity.
  destruct (orphaned_subs env) as [n | e] eqn:Ho.
  2: { cbn. split; [reflexivity |]. rewrite Hlen. split; [reflexivity |].
       split; [intros [_ H]%app_eq_nil; discriminate H |].
       intros (_ & n & Hn & _). discriminate Hn. }
  destruct (n >? 0) eqn:Hn; cbn.
  - split; [reflexivity |]. rewrite Hlen. split; [reflexivity |].
    split; [intros [_ H]%app_eq_nil; discriminate H |].
    intros (_ & n' & [= <-] & Hle). apply Z.gtb_lt in Hn. lia.
  - split; [reflexivity |]. rewrite Hlen. split; [reflexivity |].
    rewrite Hmis. split.
    + intros H. split; [exact H |]. exists n. split; [reflexivity |].
      pose proof (Zgt_cases n 0) as Hc. rewrite Hn in Hc. lia.
    + intros [H _]. exact H.
Qed.

(** X23: when the extraction from the legacy database raises,
    [migrate_users] returns a failed result that carries the error, with no
    record processed or migrated; [migrate_subscription_plans], which first
    assigns [records_migrated] inside its [try] statement, raises instead
    of returning, and so does [migrate_all_data] once the users step has
    succeeded.  [migrate_subscription_plans] returns a result exactly when
    the extraction and the transformation return. *)
Theorem extraction_failure {A B} (config : MigrationConfig) (env : StepEnv A B) :
  (forall e, read_sql env = Raise e ->
     migrate_users config env
     = {| mr_success := false; mr_records_processed := 0; mr_records_migrated := 0;
          mr_errors := ["User migration error: " +:+ e];
          mr_processing_time := elapsed env |}
     /\ (exists e', migrate_subscription_plans config env = Raise e')
     /\ forall menv r,
          step_result menv "users" = Ok r -> mr_success r = true ->
          step_result menv "subscription_plans" = migrate_subscription_plans config env ->
          exists e', migrate_all_data menv = Raise e')
  /\ ((exists r, migrate_subscription_plans config env = Ok r)
      <-> exists legacy_data transformed_data,
            read_sql env = Ok legacy_data
            /\ transform_data env legacy_data = Ok transformed_data).
Proof.
  split.
  - intros e He. split; [| split].
    + unfold migrate_users. rewrite He. reflexivity.
    + unfold migrate_subscription_plans, migrate_subscription_plans_try.
      rewrite He. eauto.
    + intros menv r Hu Hok Hplans.
      unfold migrate_all_data, migration_steps. cbn [run_migration_steps].
      rewrite Hu, Hok. cbn [negb]. rewrite Hplans.
      unfold migrate_subscription_plans, migrate_subscription_plans_try.
      rewrite He. eauto.
  - unfold migrate_subscription_plans, migrate_subscription_plans_try.
    destruct (read_sql env) as [legacy_data | e].
    + destruct (transform_data env legacy_data) as [transformed_data | e] eqn:Ht.
      * split; [eauto |]. intros _.
        destruct (load_step config (batch_insert env) transformed_data); eauto.
      * split; [intros [r Hr]; discriminate Hr |].
        intros (l & t & [= <-] & Ht'). congruence.
    + split; [intros [r Hr]; discriminate Hr |].
      intros (l & t & Hl & _). discriminate Hl.
Qed.

Lemma extraction_failure_witness :
  mr_success (migrate_users migration_config extract_fails) = false
  /\ exists e, migrate_subscription_plans migration_config extract_fails = Raise e.
Proof.
  destruct (extraction_failure migration_config extract_fails) as (H & _).
  destruct (H "connection refused" eq_refl) as (Hu & Hp & _).
  split; [rewrite Hu; reflexivity | exact Hp].
Defined.

(** X24: [migrate_users] reports success exactly when it reports no error.
    When validation is on and finds errors, these are the errors reported
    and nothing is loaded: no record is counted as migrated, whatever the
    batch insert would do.  In a dry run that passes validation the batch
    insert is not consulted and every transformed record is counted as
    migrated.  When it reports success, the records processed are the rows
    extracted. *)
Theorem migrate_users_spec {A B} (config : MigrationConfig) (env : StepEnv A B) :
  let r := migrate_users config env in
  (mr_success r = true <-> mr_errors r = [])
  /\ (forall legacy_data transformed_data errors,
        read_sql env = Ok legacy_data ->
        transform_data env legacy_data = Ok transformed_data ->
        cfg_validate_data config = true ->
        validate_data env transformed_data = Ok errors -> errors <> [] ->
        mr_success r = false /\ mr_errors r = errors /\ mr_records_migrated r = 0)
  /\ (forall legacy_data transformed_data,
        read_sql env = Ok legacy_data ->
        transform_data env legacy_data = Ok transformed_data ->
        cfg_dry_run config = true ->
        (cfg_validate_data config = true -> validate_data env transformed_data = Ok []) ->
        mr_success r = true
        /\ mr_records_migrated r = Z.of_nat (length transformed_data))
  /\ (mr_success r = true ->
      exists legacy_data,
        read_sql env = Ok legacy_data
        /\ mr_records_processed r = Z.of_nat (length legacy_data)).
Proof.
  cbv zeta. split; [| split; [| split]].
  - unfold migrate_users, load_step.
    repeat case_match; simpl; split; congruence.
  - intros legacy_data transformed_data errors Hr Ht Hv Hval Hne.
    unfold migrate_users. rewrite Hr, Ht, Hv, Hval.
    destruct errors; [contradiction |]. repeat split.
  - intros legacy_data transformed_data Hr Ht Hd Hval.
    unfold migrate_users, load_step. rewrite Hr, Ht, Hd.
    destruct (cfg_validate_data config); [rewrite (Hval eq_refl) |];
      simpl; split; reflexivity.
  - unfold migrate_users, load_step.
    repeat case_match; simpl; intros; try discriminate; eauto.
Qed.

Lemma migrate_users_spec_witness :
  mr_success
    (migrate_users {| cfg_batch_size := 1000; cfg_validate_data := true;
                      cfg_dry_run := true |}
       {| read_sql := Ok [1; 2; 3]; transform_data := fun df => Ok df;
          validate_data := fun _ => Ok [];
          batch_insert := fun _ => Raise "not consulted"; elapsed := 1 |}) = true.
Proof.
  destruct (migrate_users_spec
              {| cfg_batch_size := 1000; cfg_validate_data := true; cfg_dry_run := true |}
              {| read_sql := Ok [1; 2; 3]; transform_data := fun df => Ok df;
                 validate_data := fun _ => Ok [];
                 batch_insert := fun _ => Raise "not consulted"; elapsed := 1 |})
    as (_ & _ & H & _).
  apply (H [1; 2; 3] [1; 2; 3]); reflexivity.
Defined.
